(** * The Kafka helper of pulse-automation-tests

    A shallow embedding of [src/common/helpers/kafka-helper.js] (the
    constructor, [connect], [disconnect], [produceMessage],
    [consumeMessage] and [consumeMessages] of [KafkaHelper]) and of the
    configuration it reads, together with the pieces of the JavaScript
    run time the methods rely on: promises, [setTimeout] /
    [clearTimeout], and the consumer and producer objects of the Kafka
    client library.

    An asynchronous method is split where it suspends: the part that runs
    up to the creation of its promise is a computation in a state and
    error monad, the callbacks it registers are computations on the state
    of the wait, and the event loop runs them over a schedule of
    occurrences supplied by the environment.

    [JSON.stringify], [JSON.parse] and the printing of numbers belong to
    the language: the helper is embedded over any implementation of them
    (the class [Builtins]), and the examples are computed with one that
    covers the documents they use. *)

From Stdlib Require Import List String Ascii ZArith Bool Lia.
From Stdlib Require Import Decimal DecimalString DecimalFacts DecimalPos DecimalN DecimalZ.
Import ListNotations.
Local Open Scope string_scope.

(** ** Characters used by the JSON grammar *)

Definition dquote : ascii := Ascii.ascii_of_nat 34.
Definition backslash : ascii := Ascii.ascii_of_nat 92.

Definition is_ws (c : ascii) : bool :=
  let n := nat_of_ascii c in
  Nat.eqb n 32 || Nat.eqb n 9 || Nat.eqb n 10 || Nat.eqb n 13.

Definition is_digit (c : ascii) : bool :=
  let n := nat_of_ascii c in
  Nat.leb 48 n && Nat.leb n 57.

Definition is_control (c : ascii) : bool := Nat.ltb (nat_of_ascii c) 32.

Definition hex_digit (n : nat) : ascii :=
  if Nat.ltb n 10 then ascii_of_nat (48 + n) else ascii_of_nat (87 + n).

Definition hex_value (c : ascii) : option nat :=
  let n := nat_of_ascii c in
  if Nat.leb 48 n && Nat.leb n 57 then Some (n - 48)
  else if Nat.leb 97 n && Nat.leb n 102 then Some (n - 87)
  else if Nat.leb 65 n && Nat.leb n 70 then Some (n - 55)
  else None.

(** ** Data

    The values of JavaScript that are plain data: what a configuration
    object holds, and the documents of the examples. *)

Module JSON.

#[local] Set Warnings "-register-all".

Inductive value : Type :=
| Null
| Bool (b : bool)
| Number (n : Z)
| Str (s : string)
| Array (items : list value)
| Object (members : list (string * value)).

(** The decimal digits of an integer, with its sign. *)
Definition digits (n : Z) : string := NilZero.string_of_int (Z.to_int n).

(** A string without its trailing zeros. *)
Fixpoint strip_zeros (s : string) : string :=
  match s with
  | EmptyString => EmptyString
  | String c r =>
      match strip_zeros r with
      | EmptyString => if Ascii.eqb c "0" then EmptyString else String c EmptyString
      | String _ _ as kept => String c kept
      end
  end.

(** [`${n}`] and [String(n)] for an integer [n]: the digits in full
    below 10^21, and from there on the significant digits with an
    exponent, as in [1e+21] and [1.5e+22]. An integer stands for the
    number that JavaScript prints with these digits. *)
Definition print_number (n : Z) : string :=
  if Z.ltb (Z.abs n) (10 ^ 21) then digits n
  else
    let all := digits (Z.abs n) in
    let sign := if Z.ltb n 0 then "-" else EmptyString in
    match strip_zeros all with
    | EmptyString => digits n
    | String first more =>
        sign ++ String first
                  (match more with
                   | EmptyString => EmptyString
                   | String _ _ => String "." more
                   end)
             ++ "e+" ++ digits (Z.of_nat (String.length all - 1))
    end.

End JSON.

(** ** A codec for the documents of the examples

    [Sample.stringify] and [Sample.parse] write and read the JSON texts
    of the values of [JSON.value]: numbers are integers written in full,
    without fraction or exponent, strings hold one-byte characters, and
    an object names each member once. They are the codec of
    [sample_builtins], the implementation of the built-ins on which the
    examples are computed; a text outside these documents is answered
    like a malformed one. Nothing about the helper is proved through
    them: its theorems hold for every codec. *)

Module Sample.
Import JSON.

#[local] Set Warnings "-register-all".

(** *** Writing, as [JSON.stringify] without indentation *)

Definition quote_char (c : ascii) : string :=
  let n := nat_of_ascii c in
  if Ascii.eqb c dquote then String backslash (String dquote EmptyString)
  else if Ascii.eqb c backslash then String backslash (String backslash EmptyString)
  else if Nat.eqb n 8 then String backslash "b"
  else if Nat.eqb n 9 then String backslash "t"
  else if Nat.eqb n 10 then String backslash "n"
  else if Nat.eqb n 12 then String backslash "f"
  else if Nat.eqb n 13 then String backslash "r"
  else if is_control c then
    String backslash
      (String "u" (String "0" (String "0"
         (String (hex_digit (n / 16)) (String (hex_digit (n mod 16)) EmptyString)))))
  else String c EmptyString.

Fixpoint quote_chars (s : string) : string :=
  match s with
  | EmptyString => EmptyString
  | String c r => quote_char c ++ quote_chars r
  end.

Definition quote (s : string) : string :=
  String dquote (quote_chars s ++ String dquote EmptyString).


Fixpoint stringify (v : value) : string :=
  match v with
  | Null => "null"
  | Bool true => "true"
  | Bool false => "false"
  | Number n => digits n
  | Str s => quote s
  | Array items => "[" ++ String.concat "," (map stringify items) ++ "]"
  | Object members =>
      "{" ++ String.concat ","
               (map (fun member : string * value =>
                       let (k, x) := member in quote k ++ ":" ++ stringify x)
                    members)
          ++ "}"
  end.

(** *** Reading, as [JSON.parse] *)

Fixpoint skip_ws (s : string) : string :=
  match s with
  | String c r => if is_ws c then skip_ws r else s
  | EmptyString => s
  end.

(** [expect lit s] strips the literal [lit] from the front of [s]. *)
Fixpoint expect (lit s : string) : option string :=
  match lit with
  | EmptyString => Some s
  | String c lit' =>
      match s with
      | String d s' => if Ascii.eqb c d then expect lit' s' else None
      | EmptyString => None
      end
  end.

Definition unescape (e : ascii) : option ascii :=
  if Ascii.eqb e dquote then Some dquote
  else if Ascii.eqb e backslash then Some backslash
  else if Ascii.eqb e "/" then Some "/"%char
  else if Ascii.eqb e "b" then Some (ascii_of_nat 8)
  else if Ascii.eqb e "t" then Some (ascii_of_nat 9)
  else if Ascii.eqb e "n" then Some (ascii_of_nat 10)
  else if Ascii.eqb e "f" then Some (ascii_of_nat 12)
  else if Ascii.eqb e "r" then Some (ascii_of_nat 13)
  else None.

Definition hex4 (a b c d : ascii) : option nat :=
  match hex_value a, hex_value b, hex_value c, hex_value d with
  | Some x, Some y, Some z, Some w => Some (((x * 16 + y) * 16 + z) * 16 + w)
  | _, _, _, _ => None
  end.

(** The characters after an opening quote, up to the closing one. *)
Fixpoint parse_chars (s : string) : option (string * string) :=
  match s with
  | EmptyString => None
  | String c r =>
      if Ascii.eqb c dquote then Some (EmptyString, r)
      else if Ascii.eqb c backslash then
        match r with
        | String e r1 =>
            if Ascii.eqb e "u" then
              match r1 with
              | String h1 (String h2 (String h3 (String h4 r2))) =>
                  match hex4 h1 h2 h3 h4 with
                  | Some n =>
                      if Nat.ltb n 256 then
                        match parse_chars r2 with
                        | Some (str, rest) => Some (String (ascii_of_nat n) str, rest)
                        | None => None
                        end
                      else None
                  | None => None
                  end
              | _ => None
              end
            else
              match unescape e with
              | Some ch =>
                  match parse_chars r1 with
                  | Some (str, rest) => Some (String ch str, rest)
                  | None => None
                  end
              | None => None
              end
        | EmptyString => None
        end
      else if is_control c then None
      else
        match parse_chars r with
        | Some (str, rest) => Some (String c str, rest)
        | None => None
        end
  end.

Fixpoint span_digits (s : string) : string * string :=
  match s with
  | String c r =>
      if is_digit c then let (ds, rest) := span_digits r in (String c ds, rest)
      else (EmptyString, s)
  | EmptyString => (EmptyString, EmptyString)
  end.

Definition starts_fraction (s : string) : bool :=
  match s with
  | String c _ => Ascii.eqb c "." || Ascii.eqb c "e" || Ascii.eqb c "E"
  | EmptyString => false
  end.

Definition parse_number (s : string) : option (Z * string) :=
  let (negative, body) :=
    match s with
    | String c r => if Ascii.eqb c "-" then (true, r) else (false, s)
    | EmptyString => (false, s)
    end in
  let (ds, rest) := span_digits body in
  match ds with
  | EmptyString => None
  | String d more =>
      if Ascii.eqb d "0" && negb (String.eqb more EmptyString) then None
      else if starts_fraction rest then None
      else
        match NilZero.uint_of_string ds with
        | Some u => Some (if negative then Z.opp (Z.of_uint u) else Z.of_uint u, rest)
        | None => None
        end
  end.

Fixpoint parse_value (fuel : nat) (s : string) {struct fuel} : option (value * string) :=
  match fuel with
  | O => None
  | S fuel' =>
      match skip_ws s with
      | EmptyString => None
      | String c r =>
          if Ascii.eqb c "n" then option_map (pair Null) (expect "ull" r)
          else if Ascii.eqb c "t" then option_map (pair (Bool true)) (expect "rue" r)
          else if Ascii.eqb c "f" then option_map (pair (Bool false)) (expect "alse" r)
          else if Ascii.eqb c dquote then
            match parse_chars r with
            | Some (str, rest) => Some (Str str, rest)
            | None => None
            end
          else if Ascii.eqb c "[" then
            match skip_ws r with
            | EmptyString => None
            | String c2 r2 =>
                if Ascii.eqb c2 "]" then Some (Array [], r2)
                else
                  match parse_items fuel' r with
                  | Some (vs, rest) => Some (Array vs, rest)
                  | None => None
                  end
            end
          else if Ascii.eqb c "{" then
            match skip_ws r with
            | EmptyString => None
            | String c2 r2 =>
                if Ascii.eqb c2 "}" then Some (Object [], r2)
                else
                  match parse_members fuel' r with
                  | Some (ms, rest) => Some (Object ms, rest)
                  | None => None
                  end
            end
          else
            match parse_number (String c r) with
            | Some (n, rest) => Some (Number n, rest)
            | None => None
            end
      end
  end

with parse_items (fuel : nat) (s : string) {struct fuel} : option (list value * string) :=
  match fuel with
  | O => None
  | S fuel' =>
      match parse_value fuel' s with
      | None => None
      | Some (v, r) =>
          match skip_ws r with
          | EmptyString => None
          | String c r1 =>
              if Ascii.eqb c "," then
                match parse_items fuel' r1 with
                | Some (vs, rest) => Some (v :: vs, rest)
                | None => None
                end
              else if Ascii.eqb c "]" then Some ([v], r1)
              else None
          end
      end
  end

with parse_members (fuel : nat) (s : string) {struct fuel}
  : option (list (string * value) * string) :=
  match fuel with
  | O => None
  | S fuel' =>
      match skip_ws s with
      | EmptyString => None
      | String q r =>
          if Ascii.eqb q dquote then
            match parse_chars r with
            | None => None
            | Some (k, r1) =>
                match skip_ws r1 with
                | EmptyString => None
                | String colon r2 =>
                    if Ascii.eqb colon ":" then
                      match parse_value fuel' r2 with
                      | None => None
                      | Some (v, r3) =>
                          match skip_ws r3 with
                          | EmptyString => None
                          | String c r4 =>
                              if Ascii.eqb c "," then
                                match parse_members fuel' r4 with
                                | Some (ms, rest) => Some ((k, v) :: ms, rest)
                                | None => None
                                end
                              else if Ascii.eqb c "}" then Some ([(k, v)], r4)
                              else None
                          end
                      end
                    else None
                end
            end
          else None
      end
  end.

(** [parse] answers [None] where [JSON.parse] throws a [SyntaxError].
    An opening bracket or brace costs two levels of fuel and a further
    element one, so twice the length of the text is fuel enough
    ([parse_stringify] shows it for every text that [stringify] writes). *)
Definition parse (text : string) : option value :=
  match parse_value (2 * String.length text + 2) text with
  | Some (v, rest) =>
      match skip_ws rest with
      | EmptyString => Some v
      | String _ _ => None
      end
  | None => None
  end.

End Sample.

(** *** Measures and character classes for the round trip

    [size v] is the fuel that [Sample.parse_value] needs to read [v]. *)
Fixpoint size (v : JSON.value) : nat :=
  match v with
  | JSON.Array items => S (list_sum (map (fun x => S (size x)) items))
  | JSON.Object members =>
      S (list_sum (map (fun member : string * JSON.value => S (size (snd member))) members))
  | _ => 1
  end.

(** What may follow the text of a value inside a text. *)
Definition closes (rest : string) : bool :=
  match rest with
  | EmptyString => true
  | String c _ => Ascii.eqb c "," || Ascii.eqb c "]" || Ascii.eqb c "}"
  end.

(** What may follow the digits of a number. *)
Definition ends_number (rest : string) : bool :=
  match rest with
  | EmptyString => true
  | String c _ => negb (is_digit c) && negb (Sample.starts_fraction rest)
  end.

(** The first character of the text of a value. *)
Definition value_start (c : ascii) : bool :=
  Ascii.eqb c "n" || Ascii.eqb c "t" || Ascii.eqb c "f" || Ascii.eqb c dquote
  || Ascii.eqb c "[" || Ascii.eqb c "{" || Ascii.eqb c "-" || is_digit c.

Definition number_start (c : ascii) : bool := Ascii.eqb c "-" || is_digit c.

(** [reads v]: the parser, given fuel for [v], reads [v] back from its
    text whatever closes it. *)
Definition reads (v : JSON.value) : Prop :=
  forall fuel rest,
    size v <= fuel ->
    closes rest = true ->
    Sample.parse_value fuel (Sample.stringify v ++ rest)%string = Some (v, rest).

(** The text of one member of an object. *)
Definition member_text (member : string * JSON.value) : string :=
  let (k, x) := member in (Sample.quote k ++ ":" ++ Sample.stringify x)%string.

(** ** JavaScript values that reach the helper from its callers *)

Inductive JsError : Type :=
| Error (message : string)
| SyntaxError (message : string)
| TypeError (message : string)
| KafkaJSError (message : string).

(** ** The built-ins of the language

    [JSON.stringify], [JSON.parse], and the truth value and the printing
    of a number, are the language's and not the helper's: the helper is
    embedded over any implementation of them. [Value] are the values that
    [JSON.stringify] takes and [JSON.parse] returns, [Num] the numbers;
    [JSON_parse] answers the error that [JSON.parse] throws. A string is
    a sequence of bytes: a text is held as the Buffer of a record holds
    it. *)
Class Builtins : Type := mkBuiltins
  { Value : Type;
    JSON_stringify : Value -> string;
    JSON_parse : string -> JsError + Value;
    Num : Type;
    Num_truthy : Num -> bool;
    Num_toString : Num -> string }.

(** The values a caller passes as a message key. *)
Inductive JsValue {js : Builtins} : Type :=
| undefined
| null
| JsString (s : string)
| JsNumber (n : Num)
| JsBoolean (b : bool).

Definition truthy {js : Builtins} (v : JsValue) : bool :=
  match v with
  | undefined | null => false
  | JsString s => negb (String.eqb s EmptyString)
  | JsNumber n => Num_truthy n
  | JsBoolean b => b
  end.

(** [String(v)] *)
Definition to_String {js : Builtins} (v : JsValue) : string :=
  match v with
  | undefined => "undefined"
  | null => "null"
  | JsString s => s
  | JsNumber n => Num_toString n
  | JsBoolean true => "true"
  | JsBoolean false => "false"
  end.

(** A [filter] callback: it answers a value, of which only the truthiness
    is used, or throws. *)
Definition Predicate {js : Builtins} : Type := Value -> JsError + bool.

(** ** The objects of the Kafka client library *)

(** A fetched record: [key] and [value] are a Buffer or null. *)
Module Message.
Record t : Type := make
  { key : option string;
    value : option string;
    offset : string;
    timestamp : string }.
End Message.

(** The argument of an [eachMessage] callback. *)
Module Payload.
Record t : Type := make
  { topic : string;
    partition : Z;
    message : Message.t }.
End Payload.

(** The object [consumeMessage] and [consumeMessages] hand to the caller
    for one record. *)
Module Event.
Record t {js : Builtins} : Type := make
  { topic : string;
    partition : Z;
    offset : string;
    key : option string;
    value : Value;
    timestamp : string }.
Arguments make {js}.
End Event.

(** The argument of [producer.send], for its one message. *)
Module Sent.
Record t : Type := make
  { topic : string;
    key : option string;
    value : string }.
End Sent.

(** The client library behind [this.kafka]: the requests its producer
    has received, in order, and how it answers [connect], [subscribe]
    and [send]. *)
Record Cluster : Type := mkCluster
  { sent : list Sent.t;
    connect_error : option JsError;
    subscribe_error : string -> option JsError;
    send_error : string -> option JsError }.

Inductive ConsumerCall : Type :=
| Subscribe (topic : string) (fromBeginning : bool)
| Run
| Stop.

(** [this.consumer]: the calls it has received and whether its fetch loop
    is running. *)
Record Consumer : Type := mkConsumer
  { calls : list ConsumerCall;
    running : bool }.

Inductive Level : Type := INFO | WARN | ERROR.

(** [this.producer] is reached only through [cluster]; [this.consumer] is
    null until [connect] and every use by the three methods is behind the
    [isConnected] test, so one [Consumer] record stands for it there. [logged] is the
    output of the logger module (message texts, without the metadata
    object). *)
Record KafkaHelper : Type := mkKafkaHelper
  { cluster : Cluster;
    consumer : Consumer;
    isConnected : bool;
    logged : list (Level * string) }.

(** ** Promises and timers *)

Inductive Promise (A : Type) : Type :=
| Pending
| Resolved (a : A)
| Rejected (e : JsError).
Arguments Pending {A}.
Arguments Resolved {A} a.
Arguments Rejected {A} e.

Inductive Timer : Type :=
| Armed (delay : Z)
| Cleared
| Fired.

(** The state of one call after its promise is created: the helper, the
    timer of [setTimeout], the promise, and the variables captured by the
    callbacks ([messages] in [consumeMessages]). *)
Record Wait (A L : Type) : Type := mkWait
  { this : KafkaHelper;
    timer : Timer;
    promise : Promise A;
    locals : L }.
Arguments mkWait {A L}.
Arguments this {A L}.
Arguments timer {A L}.
Arguments promise {A L}.
Arguments locals {A L}.

(** ** A state monad in which a throw keeps the effects made so far *)

Definition M (S A : Type) : Type := S -> (JsError + A) * S.

Definition ret {S A : Type} (a : A) : M S A := fun s => (inr a, s).

Definition bind {S A B : Type} (m : M S A) (k : A -> M S B) : M S B :=
  fun s =>
    match m s with
    | (inr a, s') => k a s'
    | (inl e, s') => (inl e, s')
    end.

Definition throw {S A : Type} (e : JsError) : M S A := fun s => (inl e, s).

Definition try_catch {S A : Type} (body : M S A) (handler : JsError -> M S A) : M S A :=
  fun s =>
    match body s with
    | (inl e, s') => handler e s'
    | (inr a, s') => (inr a, s')
    end.

Definition gets {S A : Type} (f : S -> A) : M S A := fun s => (inr (f s), s).

Definition modify {S : Type} (f : S -> S) : M S unit := fun s => (inr tt, f s).

Definition lift {S A : Type} (r : JsError + A) : M S A := fun s => (r, s).

Declare Scope js_scope.
Delimit Scope js_scope with js.
Notation "x <- m ;; k" := (bind m (fun x => k))
  (at level 61, m at next level, right associativity) : js_scope.
Notation "m ;; k" := (bind m (fun _ => k))
  (at level 61, right associativity) : js_scope.
Local Open Scope js_scope.

(** An effect on the helper, run from inside a callback. *)
Definition on_this {A L B : Type} (m : M KafkaHelper B) : M (Wait A L) B :=
  fun w =>
    let (r, kh) := m (this w) in
    (r, mkWait kh (timer w) (promise w) (locals w)).

(** ** The logger and the consumer *)

Definition log (lvl : Level) (text : string) : M KafkaHelper unit :=
  modify (fun kh =>
    mkKafkaHelper (cluster kh) (consumer kh) (isConnected kh) (logged kh ++ [(lvl, text)])).

Definition with_consumer (kh : KafkaHelper) (c : Consumer) : KafkaHelper :=
  mkKafkaHelper (cluster kh) c (isConnected kh) (logged kh).

Definition consumer_subscribe (topic : string) (fromBeginning : bool) : M KafkaHelper unit :=
  modify (fun kh =>
    let c := consumer kh in
    with_consumer kh (mkConsumer (calls c ++ [Subscribe topic fromBeginning]) (running c)));;
  answer <- gets (fun kh => subscribe_error (cluster kh) topic);;
  match answer with
  | Some e => throw e
  | None => ret tt
  end.

Definition consumer_run : M KafkaHelper unit :=
  modify (fun kh =>
    let c := consumer kh in
    with_consumer kh (mkConsumer (calls c ++ [Run]) true)).

Definition consumer_stop : M KafkaHelper unit :=
  modify (fun kh =>
    let c := consumer kh in
    with_consumer kh (mkConsumer (calls c ++ [Stop]) false)).

(** ** [clearTimeout], [resolve] and [reject] *)

Definition clearTimeout {A L : Type} : M (Wait A L) unit :=
  modify (fun w =>
    match timer w with
    | Armed _ => mkWait (this w) Cleared (promise w) (locals w)
    | Cleared | Fired => w
    end).

(** A promise is settled once: later calls change nothing. *)
Definition settle {A L : Type} (p : Promise A) : M (Wait A L) unit :=
  modify (fun w =>
    match promise w with
    | Pending => mkWait (this w) (timer w) p (locals w)
    | Resolved _ | Rejected _ => w
    end).

Definition resolve {A L : Type} (a : A) : M (Wait A L) unit := settle (Resolved a).
Definition reject {A L : Type} (e : JsError) : M (Wait A L) unit := settle (Rejected e).

(** ** The options object *)

(** A field left out by the caller is [None]; the defaults are those of
    the destructuring patterns of [consumeMessage] and [consumeMessages]. *)
Module Options.
Record t {js : Builtins} : Type := make
  { filter : option Predicate;
    timeout : option Z;
    fromBeginning : option bool;
    maxMessages : option Z }.
Arguments make {js}.

Definition empty {js : Builtins} : t := make None None None None.
End Options.

Definition default {A : Type} (d : A) (o : option A) : A :=
  match o with
  | Some a => a
  | None => d
  end.

(** ** [KafkaHelper] *)

Definition not_connected : JsError := Error "Kafka is not connected. Call connect() first.".

(** [new KafkaHelper()] *)
Definition constructor (k : Cluster) : KafkaHelper :=
  mkKafkaHelper k (mkConsumer [] false) false [].

(** [connect()]: the producer and then the consumer are created and
    connected; [isConnected] is set only when both succeeded. *)
Definition connect : M KafkaHelper unit :=
  try_catch
    (log INFO "Connecting to Kafka...";;
     answer <- gets (fun kh => connect_error (cluster kh));;
     match answer with
     | Some e => throw e
     | None =>
         modify (fun kh =>
           mkKafkaHelper (cluster kh) (mkConsumer [] false) true (logged kh));;
         log INFO "Connected to Kafka successfully"
     end)
    (fun error =>
       log ERROR "Failed to connect to Kafka";;
       throw error).

(** [await this.producer.send(request)]: the producer receives the
    request, and the call returns or throws as the client library
    answers. *)
Definition producer_send (request : Sent.t) : M KafkaHelper unit :=
  modify (fun kh =>
    let k := cluster kh in
    mkKafkaHelper
      (mkCluster (sent k ++ [request])%list
         (connect_error k) (subscribe_error k) (send_error k))
      (consumer kh) (isConnected kh) (logged kh));;
  answer <- gets (fun kh => send_error (cluster kh) (Sent.topic request));;
  match answer with
  | Some e => throw e
  | None => ret tt
  end.

(** [produceMessage(topic, message, key = null)] *)
Definition produceMessage {js : Builtins} (topic : string) (message : Value) (key : JsValue)
  : M KafkaHelper unit :=
  connected <- gets isConnected;;
  if negb connected then throw not_connected
  else
    let key := match key with undefined => null | _ => key end in
    try_catch
      (log INFO ("Producing message to topic: " ++ topic);;
       producer_send
         (Sent.make topic
            (if truthy key then Some (to_String key) else None)
            (JSON_stringify message));;
       log INFO ("Message produced successfully to topic: " ++ topic))
      (fun error =>
         log ERROR ("Failed to produce message to topic: " ++ topic);;
         throw error).

(** [JSON.parse(message.value.toString())] *)
Definition decode {js : Builtins} (message : Message.t) : JsError + Value :=
  match Message.value message with
  | None => inl (TypeError "Cannot read properties of null (reading 'toString')")
  | Some text => JSON_parse text
  end.

(** [!filter || filter(value)] *)
Definition accepts {js : Builtins} (filter : option Predicate) (value : Value)
  : JsError + bool :=
  match filter with
  | None => inr true
  | Some f => f value
  end.

(** The object literal built for a record that passed the filter. *)
Definition event_of {js : Builtins} (p : Payload.t) (value : Value) : Event.t :=
  let message := Payload.message p in
  Event.make (Payload.topic p) (Payload.partition p) (Message.offset message)
    (Message.key message) value (Message.timestamp message).

(** *** [consumeMessage(topic, options = {})] *)

Definition WaitOne {js : Builtins} : Type := Wait (option Event.t) unit.

(** The callback given to [setTimeout]. *)
Definition consumeMessage_onTimeout {js : Builtins} (topic : string) : M WaitOne unit :=
  on_this (log WARN ("Timeout waiting for message from topic: " ++ topic));;
  resolve None.

(** The [eachMessage] callback given to [consumer.run]. *)
Definition consumeMessage_eachMessage {js : Builtins} (filter : option Predicate)
  (p : Payload.t) : M WaitOne unit :=
  try_catch
    (value <- lift (decode (Payload.message p));;
     on_this (log INFO ("Received message from topic: " ++ Payload.topic p));;
     pass <- lift (accepts filter value);;
     if pass then
       clearTimeout;;
       on_this consumer_stop;;
       resolve (Some (event_of p value))
     else ret tt)
    (fun error =>
       clearTimeout;;
       on_this consumer_stop;;
       reject error).

(** The part of [consumeMessage] that runs before the first suspension on
    the new promise: the connection test, the defaults, [subscribe], and
    the promise executor ([setTimeout], then [consumer.run]). The [catch]
    of the method also covers the later rejection of the promise; that
    part is in [completed]. *)
Definition consumeMessage {js : Builtins} (topic : string) (options : Options.t)
  : M KafkaHelper WaitOne :=
  connected <- gets isConnected;;
  if negb connected then throw not_connected
  else
    let timeout := default 10000%Z (Options.timeout options) in
    let fromBeginning := default true (Options.fromBeginning options) in
    try_catch
      (log INFO ("Consuming message from topic: " ++ topic);;
       consumer_subscribe topic fromBeginning;;
       consumer_run;;
       kh <- gets (fun kh => kh);;
       ret (mkWait kh (Armed timeout) Pending tt))
      (fun error =>
         log ERROR ("Failed to consume message from topic: " ++ topic);;
         throw error).

(** *** [consumeMessages(topic, options = {})] *)

(** The promise of [consumeMessages] is resolved with the array
    [messages] itself, not with a copy: what the caller holds is a
    reference, and the elements it sees are those of the array when it
    looks. *)
Inductive ArrayRef : Type := messages.

Definition WaitMany {js : Builtins} : Type := Wait ArrayRef (list Event.t).

Definition read {js : Builtins} {A : Type} (w : Wait A (list Event.t)) (r : ArrayRef)
  : list Event.t :=
  match r with
  | messages => locals w
  end.

(** [messages.push(e)] *)
Definition messages_push {js : Builtins} (e : Event.t) : M WaitMany unit :=
  modify (fun w => mkWait (this w) (timer w) (promise w) (locals w ++ [e])%list).

Definition consumeMessages_onTimeout {js : Builtins} : M WaitMany unit :=
  len <- gets (fun w => Z.of_nat (List.length (locals w)));;
  on_this (log INFO ("Timeout reached. Consumed " ++ JSON.print_number len ++ " messages"));;
  resolve messages.

Definition consumeMessages_eachMessage {js : Builtins} (filter : option Predicate)
  (maxMessages : Z) (p : Payload.t) : M WaitMany unit :=
  try_catch
    (value <- lift (decode (Payload.message p));;
     pass <- lift (accepts filter value);;
     if pass then
       messages_push (event_of p value);;
       len <- gets (fun w => Z.of_nat (List.length (locals w)));;
       if Z.geb len maxMessages then
         clearTimeout;;
         on_this consumer_stop;;
         resolve messages
       else ret tt
     else ret tt)
    (fun error =>
       clearTimeout;;
       on_this consumer_stop;;
       reject error).

Definition consumeMessages {js : Builtins} (topic : string) (options : Options.t)
  : M KafkaHelper WaitMany :=
  connected <- gets isConnected;;
  if negb connected then throw not_connected
  else
    let maxMessages := default 10%Z (Options.maxMessages options) in
    let timeout := default 10000%Z (Options.timeout options) in
    let fromBeginning := default true (Options.fromBeginning options) in
    try_catch
      (log INFO ("Consuming up to " ++ JSON.print_number maxMessages
                 ++ " messages from topic: " ++ topic);;
       consumer_subscribe topic fromBeginning;;
       consumer_run;;
       kh <- gets (fun kh => kh);;
       ret (mkWait kh (Armed timeout) Pending []))
      (fun error =>
         log ERROR ("Failed to consume messages from topic: " ++ topic);;
         throw error).

(** ** The event loop *)

(** What the run time does while a call is suspended: the consumer hands
    a fetched record to [eachMessage], the timer of [setTimeout] expires,
    the connection to the brokers drops, or the client library gives up
    on the consumer with an error, its own attempts to recover being
    exhausted. The client library reports the last two to whoever
    listens: through the events of the consumer, and through the promise
    that [consumer.run] returned. *)
Inductive Occurrence : Type :=
| Deliver (p : Payload.t)
| TimerFires
| Disconnected
| Crashed (e : JsError).

(** What a call has registered with the run time: the [eachMessage]
    handler given to [consumer.run], the callback given to [setTimeout],
    and the handlers it attached for a disconnect and for a crash of the
    consumer (with [consumer.on], or on the promise of [consumer.run]),
    if it attached any. *)
Record Callbacks (A L : Type) : Type := mkCallbacks
  { eachMessage : Payload.t -> M (Wait A L) unit;
    onTimeout : M (Wait A L) unit;
    onDisconnect : option (M (Wait A L) unit);
    onCrash : option (JsError -> M (Wait A L) unit) }.
Arguments mkCallbacks {A L}.
Arguments eachMessage {A L}.
Arguments onTimeout {A L}.
Arguments onDisconnect {A L}.
Arguments onCrash {A L}.

(** One turn of the loop. A stopped consumer hands over nothing, a
    cleared or expired timer does not fire, and a report for which no
    handler is attached runs no code of the call. *)
Definition dispatch {A L : Type} (cb : Callbacks A L) (w : Wait A L) (o : Occurrence)
  : Wait A L :=
  match o with
  | Deliver p =>
      if running (consumer (this w)) then snd (eachMessage cb p w) else w
  | TimerFires =>
      match timer w with
      | Armed _ => snd (onTimeout cb (mkWait (this w) Fired (promise w) (locals w)))
      | Cleared | Fired => w
      end
  | Disconnected =>
      match onDisconnect cb with
      | Some handler => snd (handler w)
      | None => w
      end
  | Crashed e =>
      match onCrash cb with
      | Some handler => snd (handler e w)
      | None => w
      end
  end.

(** The loop up to the turn that settles the promise: the state in which
    the caller resumes, and the occurrences not yet processed. *)
Fixpoint await {A L : Type} (cb : Callbacks A L) (w : Wait A L) (schedule : list Occurrence)
  : Wait A L * list Occurrence :=
  match promise w with
  | Pending =>
      match schedule with
      | [] => (w, [])
      | o :: rest => await cb (dispatch cb w o) rest
      end
  | Resolved _ | Rejected _ => (w, schedule)
  end.

(** The loop through a whole schedule, also past the settlement. *)
Definition run {A L : Type} (cb : Callbacks A L) (w : Wait A L) (schedule : list Occurrence)
  : Wait A L :=
  fold_left (dispatch cb) schedule w.

(** How a call ends. [Suspended]: the schedule ran out first. *)
Inductive Completion (A : Type) : Type :=
| Returned (a : A)
| Threw (e : JsError)
| Suspended.
Arguments Returned {A} a.
Arguments Threw {A} e.
Arguments Suspended {A}.

(** A call from its start to its completion: either it threw before a
    promise was created, or it waited on the promise. *)
Inductive Call (A L : Type) : Type :=
| Refused (e : JsError) (kh : KafkaHelper)
| Waited (w : Wait A L) (unprocessed : list Occurrence).
Arguments Refused {A L} e kh.
Arguments Waited {A L} w unprocessed.

(** [return await promise] inside [try]: a rejection passes through the
    [catch] of the method, which logs it and throws it again. *)
Definition completed {A L : Type} (failure : string) (w : Wait A L) : Wait A L :=
  match promise w with
  | Rejected _ => snd (on_this (log ERROR failure) w)
  | Pending | Resolved _ => w
  end.

Definition call {A L : Type} (start : M KafkaHelper (Wait A L)) (cb : Callbacks A L)
  (failure : string) (kh : KafkaHelper) (schedule : list Occurrence) : Call A L :=
  match start kh with
  | (inl e, kh') => Refused e kh'
  | (inr w, _) =>
      let (w', rest) := await cb w schedule in
      Waited (completed failure w') rest
  end.

(** What [consumeMessage] registers (lines 115-150): the timer callback
    and [eachMessage]. It calls [consumer.on] nowhere, and the promise
    that [this.consumer.run(...)] returns is dropped (line 120): no
    handler is attached for a disconnect or a crash. *)
Definition consumeMessage_callbacks {js : Builtins} (topic : string) (options : Options.t)
  : Callbacks (option Event.t) unit :=
  mkCallbacks (consumeMessage_eachMessage (Options.filter options))
              (consumeMessage_onTimeout topic)
              None
              None.

(** What [consumeMessages] registers (lines 178-210): likewise (the
    promise of [consumer.run] is dropped at line 183). *)
Definition consumeMessages_callbacks {js : Builtins} (options : Options.t)
  : Callbacks ArrayRef (list Event.t) :=
  mkCallbacks (consumeMessages_eachMessage (Options.filter options)
                 (default 10%Z (Options.maxMessages options)))
              consumeMessages_onTimeout
              None
              None.

(** [await kafka.consumeMessage(topic, options)] under a schedule. *)
Definition await_consumeMessage {js : Builtins} (kh : KafkaHelper) (topic : string)
  (options : Options.t) (schedule : list Occurrence) : Call (option Event.t) unit :=
  call (consumeMessage topic options) (consumeMessage_callbacks topic options)
       ("Failed to consume message from topic: " ++ topic) kh schedule.

(** [await kafka.consumeMessages(topic, options)] under a schedule. *)
Definition await_consumeMessages {js : Builtins} (kh : KafkaHelper) (topic : string)
  (options : Options.t) (schedule : list Occurrence) : Call ArrayRef (list Event.t) :=
  call (consumeMessages topic options) (consumeMessages_callbacks options)
       ("Failed to consume messages from topic: " ++ topic) kh schedule.

(** *** Observations on a completed call *)

Definition outcome {A L : Type} (c : Call A L) : Completion A :=
  match c with
  | Refused e _ => Threw e
  | Waited w _ =>
      match promise w with
      | Pending => Suspended
      | Resolved a => Returned a
      | Rejected e => Threw e
      end
  end.

Definition helper_after {A L : Type} (c : Call A L) : KafkaHelper :=
  match c with
  | Refused _ kh => kh
  | Waited w _ => this w
  end.

(** The elements of the array returned by [consumeMessages], read when
    the caller resumes. *)
Definition returned_messages {js : Builtins} (c : Call ArrayRef (list Event.t))
  : option (list Event.t) :=
  match c with
  | Refused _ _ => None
  | Waited w _ =>
      match promise w with
      | Resolved r => Some (read w r)
      | Pending | Rejected _ => None
      end
  end.

(** ** Vocabulary for the statements *)

(** What [eachMessage] makes of a record: it throws (the payload does not
    decode, or the filter raises), or the record passes the filter and
    gives an event, or the filter turns it down. *)
Definition screen {js : Builtins} (filter : option Predicate) (p : Payload.t)
  : JsError + option Event.t :=
  match decode (Payload.message p) with
  | inl e => inl e
  | inr v =>
      match accepts filter v with
      | inl e => inl e
      | inr true => inr (Some (event_of p v))
      | inr false => inr None
      end
  end.

(** An occurrence that leaves a pending wait pending: a record that
    decodes and that the filter turns down, or a report of the client
    library, for which the helper has no handler. *)
Definition quiet {js : Builtins} (filter : option Predicate) (o : Occurrence) : bool :=
  match o with
  | Deliver p =>
      match screen filter p with
      | inr None => true
      | _ => false
      end
  | TimerFires => false
  | Disconnected | Crashed _ => true
  end.

(** A report of the client library about the transport or the consumer. *)
Definition report (o : Occurrence) : bool :=
  match o with
  | Disconnected | Crashed _ => true
  | Deliver _ | TimerFires => false
  end.

(** An occurrence on which no callback throws and no timer expires. *)
Definition faultless {js : Builtins} (filter : option Predicate) (o : Occurrence) : bool :=
  match o with
  | Deliver p =>
      match screen filter p with
      | inr _ => true
      | inl _ => false
      end
  | TimerFires => false
  | Disconnected | Crashed _ => true
  end.

(** The events of the records of a schedule that pass the filter, in the
    order of the schedule, one per delivery. *)
Fixpoint matches {js : Builtins} (filter : option Predicate) (schedule : list Occurrence)
  : list Event.t :=
  match schedule with
  | [] => []
  | Deliver p :: rest =>
      match screen filter p with
      | inr (Some ev) => ev :: matches filter rest
      | _ => matches filter rest
      end
  | _ :: rest => matches filter rest
  end.

(** The identity of a record on its topic. *)
Definition position {js : Builtins} (e : Event.t) : Z * string :=
  (Event.partition e, Event.offset e).

(** A record, as a consumer is handed it, carries a request of the
    producer: it is on the topic of the request and holds its key and
    its value (the partition, the offset and the timestamp are the
    brokers'). *)
Definition carries (p : Payload.t) (request : Sent.t) : Prop :=
  Payload.topic p = Sent.topic request
  /\ Message.key (Payload.message p) = Sent.key request
  /\ Message.value (Payload.message p) = Some (Sent.value request).

(** *** Shapes of states used in the lemmas *)

(** Two states of a wait that differ at most in the logger output. *)
Definition undisturbed {A L : Type} (w w' : Wait A L) : Prop :=
  consumer (this w') = consumer (this w)
  /\ cluster (this w') = cluster (this w)
  /\ isConnected (this w') = isConnected (this w)
  /\ timer w' = timer w
  /\ promise w' = promise w
  /\ locals w' = locals w.

Definition clear (t : Timer) : Timer :=
  match t with
  | Armed _ => Cleared
  | Cleared | Fired => t
  end.

Definition settled_with {A : Type} (now before : Promise A) : Promise A :=
  match before with
  | Pending => now
  | Resolved _ | Rejected _ => before
  end.

Definition stopped (c : Consumer) : Consumer := mkConsumer (calls c ++ [Stop]) false.

(** The completion of [consumeMessage] read off the schedule alone: the
    first occurrence that is not quiet decides. [await_verdict] shows that
    the embedded code ends this way. *)
Fixpoint verdict {js : Builtins} (filter : option Predicate) (schedule : list Occurrence)
  : Completion (option Event.t) :=
  match schedule with
  | [] => Suspended
  | Deliver p :: rest =>
      match screen filter p with
      | inl e => Threw e
      | inr (Some ev) => Returned (Some ev)
      | inr None => verdict filter rest
      end
  | TimerFires :: _ => Returned None
  | (Disconnected | Crashed _) :: rest => verdict filter rest
  end.

Definition completion_of {A : Type} (p : Promise A) : Completion A :=
  match p with
  | Pending => Suspended
  | Resolved a => Returned a
  | Rejected e => Threw e
  end.

(** The consumer as [consumeMessage] and [consumeMessages] leave it when
    they suspend: subscribed once, started once. *)
Definition armed_consumer {js : Builtins} (kh : KafkaHelper) (topic : string)
  (options : Options.t) : Consumer :=
  mkConsumer
    (calls (consumer kh)
       ++ [Subscribe topic (default true (Options.fromBeginning options)); Run])%list
    true.

(** The helper after [this.consumer.stop()]. *)
Definition stop_consumer (kh : KafkaHelper) : KafkaHelper :=
  with_consumer kh (stopped (consumer kh)).

(** The options [{ filter: f }]. *)
Definition with_filter {js : Builtins} (f : Predicate) : Options.t :=
  Options.make (Some f) None None None.

(** ** The rest of the helper and its callers *)

(** *** The environment configuration read by the helper

    [process.env]: a variable is unset or holds a string. *)
Definition Env : Type := string -> option string.

(** [v || d] for a variable [v]: an unset and an empty variable give
    [d]. *)
Definition or_default (v : option string) (d : string) : string :=
  match v with
  | Some s => if String.eqb s EmptyString then d else s
  | None => d
  end.

(** [s.split(sep)] for a one-character separator. *)
Fixpoint split_on (sep : ascii) (s : string) : list string :=
  match s with
  | EmptyString => [EmptyString]
  | String c r =>
      if Ascii.eqb c sep then EmptyString :: split_on sep r
      else
        match split_on sep r with
        | first :: more => String c first :: more
        | [] => [String c EmptyString]
        end
  end.

(** The [kafka] member of the configuration object. *)
Module KafkaSection.
Record t : Type := make
  { brokers : list string;
    clientId : string;
    username : option string;
    password : option string;
    ssl : bool;
    connectionTimeout : Z;
    requestTimeout : Z }.
End KafkaSection.

Definition config_kafka (env : Env) : KafkaSection.t :=
  KafkaSection.make
    (match env "KAFKA_BROKERS" with
     | Some s => split_on "," s
     | None => ["localhost:9092"]
     end)
    (or_default (env "KAFKA_CLIENT_ID") "pulse-automation-tests")
    (env "KAFKA_USERNAME")
    (env "KAFKA_PASSWORD")
    (match env "KAFKA_SSL" with
     | Some s => String.eqb s "true"
     | None => false
     end)
    10000%Z
    30000%Z.

(** *** The client configuration built by the constructor

    An object is the list of its properties, in insertion order; an
    assignment to a property that exists keeps its place. *)
Definition JsObject : Type := list (string * JSON.value).

Fixpoint set_property (name : string) (v : JSON.value) (o : JsObject) : JsObject :=
  match o with
  | [] => [(name, v)]
  | (k, x) :: rest =>
      if String.eqb k name then (k, v) :: rest else (k, x) :: set_property name v rest
  end.

(** [{ ...base, ...custom }] *)
Definition spread (base custom : JsObject) : JsObject :=
  fold_left (fun o member => set_property (fst member) (snd member) o) custom base.

(** A configured string is truthy when it is set and not empty. *)
Definition configured (v : option string) : bool :=
  match v with
  | Some s => negb (String.eqb s EmptyString)
  | None => false
  end.

(** [kafkaConfig] as the constructor hands it to [new Kafka(...)];
    [level_ERROR] is [logLevel.ERROR] of the client library. *)
Definition kafkaConfig (level_ERROR : JSON.value) (cfg : KafkaSection.t)
  (customConfig : JsObject) : JsObject :=
  let literal :=
    spread
      [("clientId", JSON.Str (KafkaSection.clientId cfg));
       ("brokers", JSON.Array (map JSON.Str (KafkaSection.brokers cfg)));
       ("connectionTimeout", JSON.Number (KafkaSection.connectionTimeout cfg));
       ("requestTimeout", JSON.Number (KafkaSection.requestTimeout cfg));
       ("logLevel", level_ERROR)]
      customConfig in
  let with_sasl :=
    if configured (KafkaSection.username cfg) && configured (KafkaSection.password cfg)
    then
      set_property "sasl"
        (JSON.Object
           [("mechanism", JSON.Str "plain");
            ("username", JSON.Str (default EmptyString (KafkaSection.username cfg)));
            ("password", JSON.Str (default EmptyString (KafkaSection.password cfg)))])
        literal
    else literal in
  if KafkaSection.ssl cfg then set_property "ssl" (JSON.Bool true) with_sasl else with_sasl.

(** *** [disconnect()]

    [this.producer] and [this.consumer] as [disconnect] finds them: null,
    or a client whose [disconnect()] succeeds or rejects. *)
Record Clients : Type := mkClients
  { producer : option (option JsError);
    consumerClient : option (option JsError) }.

Inductive ClientCall : Type :=
| ProducerDisconnect
| ConsumerDisconnect.

(** The helper together with the [disconnect] calls its clients have
    received. *)
Definition Teardown : Type := (KafkaHelper * list ClientCall)%type.

Definition on_helper {B : Type} (m : M KafkaHelper B) : M Teardown B :=
  fun t =>
    let (r, kh) := m (fst t) in
    (r, (kh, snd t)).

(** [if (client) { await client.disconnect(); }] *)
Definition client_disconnect (client : option (option JsError)) (c : ClientCall)
  : M Teardown unit :=
  match client with
  | None => ret tt
  | Some answer =>
      modify (fun t : Teardown => (fst t, (snd t ++ [c])%list));;
      match answer with
      | Some e => throw e
      | None => ret tt
      end
  end.

Definition disconnect (clients : Clients) : M Teardown unit :=
  try_catch
    (client_disconnect (producer clients) ProducerDisconnect;;
     client_disconnect (consumerClient clients) ConsumerDisconnect;;
     on_helper (modify (fun kh =>
       mkKafkaHelper (cluster kh) (consumer kh) false (logged kh)));;
     on_helper (log INFO "Disconnected from Kafka"))
    (fun error =>
       on_helper (log ERROR "Error disconnecting from Kafka");;
       throw error).

(** The error with which [disconnect] ends: that of the first client,
    producer before consumer, whose [disconnect()] rejects. *)
Definition first_rejection (clients : Clients) : option JsError :=
  match producer clients with
  | Some (Some e) => Some e
  | Some None | None =>
      match consumerClient clients with
      | Some (Some e) => Some e
      | Some None | None => None
      end
  end.

(** The clients that are asked to disconnect. *)
Definition attempted (clients : Clients) : list ClientCall :=
  match producer clients with
  | Some (Some _) => [ProducerDisconnect]
  | Some None =>
      ProducerDisconnect
      :: match consumerClient clients with
         | Some _ => [ConsumerDisconnect]
         | None => []
         end
  | None =>
      match consumerClient clients with
      | Some _ => [ConsumerDisconnect]
      | None => []
      end
  end.

(** *** Callers *)




(** How often a character occurs in a string. *)
Fixpoint occurrences (c : ascii) (s : string) : nat :=
  match s with
  | EmptyString => 0
  | String d r => (if Ascii.eqb d c then 1 else 0) + occurrences c r
  end.

(** The cap in force in [consumeMessages]. *)
Definition cap_in_force {js : Builtins} (options : Options.t) : Z :=
  Z.max 1 (default 10%Z (Options.maxMessages options)).

(** [messages] is within the cap in force, and below it for as long as
    the consumer runs. *)
Definition within_cap {js : Builtins} (options : Options.t) (w : WaitMany) : Prop :=
  (Z.of_nat (List.length (locals w)) <= cap_in_force options)%Z
  /\ (running (consumer (this w)) = true ->
      (Z.of_nat (List.length (locals w)) < cap_in_force options)%Z).

(** ** The examples

    The built-ins on which the examples are computed: the documents of
    [JSON.value] with the codec [Sample], and integers as numbers. *)
#[global] Instance sample_builtins : Builtins :=
  mkBuiltins JSON.value
    Sample.stringify
    (fun text =>
       match Sample.parse text with
       | Some v => inr v
       | None => inl (SyntaxError "Unexpected token in JSON")
       end)
    Z
    (fun n => negb (Z.eqb n 0))
    JSON.print_number.

Definition local_cluster : Cluster :=
  mkCluster [] None (fun _ => None) (fun _ => None).

Definition connected_helper : KafkaHelper := snd (connect (constructor local_cluster)).

Definition order_created : JSON.value :=
  JSON.Object [("orderId", JSON.Str "X"); ("eventType", JSON.Str "ORDER_CREATED")].

Definition order_shipped : JSON.value :=
  JSON.Object [("orderId", JSON.Str "X"); ("eventType", JSON.Str "ORDER_SHIPPED")].

Definition other_order : JSON.value :=
  JSON.Object [("orderId", JSON.Str "Y"); ("eventType", JSON.Str "ORDER_CREATED")].

Definition record (v : JSON.value) (offset : string) : Payload.t :=
  Payload.make "order-events" 0%Z
    (Message.make None (Some (Sample.stringify v)) offset "1700000000000").

Definition garbled (offset : string) : Payload.t :=
  Payload.make "order-events" 0%Z
    (Message.make None (Some "{not json") offset "1700000000000").

(** [lookup name v] is [v[name]] for an object [v]. *)
Fixpoint assoc (name : string) (members : list (string * JSON.value)) : option JSON.value :=
  match members with
  | [] => None
  | (k, x) :: rest => if String.eqb k name then Some x else assoc name rest
  end.

Definition lookup (name : string) (v : JSON.value) : option JSON.value :=
  match v with
  | JSON.Object members => assoc name members
  | _ => None
  end.

(** [msg => msg.orderId === 'X'] *)
Definition order_is_X : Predicate :=
  fun v =>
    match lookup "orderId" v with
    | Some (JSON.Str s) => inr (String.eqb s "X")
    | _ => inr false
    end.

(** [msg => msg.details.code === 7]: it raises a [TypeError] on a message
    without [details]. *)
Definition details_code_is_7 : Predicate :=
  fun v =>
    match lookup "details" v with
    | Some d =>
        match lookup "code" d with
        | Some (JSON.Number n) => inr (Z.eqb n 7)
        | _ => inr false
        end
    | None => inl (TypeError "Cannot read properties of undefined (reading 'code')")
    end.

Definition order_with_details : JSON.value :=
  JSON.Object [("orderId", JSON.Str "Z");
               ("details", JSON.Object [("code", JSON.Number 7)])].

Definition helper_on (k : Cluster) : KafkaHelper := snd (connect (constructor k)).

(** A client library that turns down a [subscribe] without a topic. *)
Definition strict_cluster : Cluster :=
  mkCluster [] None
    (fun topic =>
       if String.eqb topic EmptyString
       then Some (KafkaJSError "Missing required argument topics")
       else None)
    (fun _ => None).

(** * Properties *)

Local Open Scope list_scope.

(** ** The monad and the event loop *)

Ltac js_unfold :=
  repeat (progress unfold try_catch, bind, ret, throw, lift, gets, modify, on_this, log,
    consumer_stop, consumer_run, consumer_subscribe, producer_send, clearTimeout,
    resolve, reject,
    settle, messages_push, with_consumer in * ).

Lemma undisturbed_refl {A L : Type} (w : Wait A L) : undisturbed w w.
Proof. unfold undisturbed; tauto. Qed.

Lemma undisturbed_trans {A L : Type} (w1 w2 w3 : Wait A L) :
  undisturbed w1 w2 -> undisturbed w2 w3 -> undisturbed w1 w3.
Proof.
  unfold undisturbed; intros (a1 & a2 & a3 & a4 & a5 & a6) (b1 & b2 & b3 & b4 & b5 & b6).
  repeat split; congruence.
Qed.

Lemma await_settled {A L : Type} (cb : Callbacks A L) (w : Wait A L) schedule :
  promise w <> Pending -> await cb w schedule = (w, schedule).
Proof.
  intros H; destruct schedule; simpl; destruct (promise w); congruence.
Qed.

Lemma await_pending_cons {A L : Type} (cb : Callbacks A L) (w : Wait A L) o rest :
  promise w = Pending -> await cb w (o :: rest) = await cb (dispatch cb w o) rest.
Proof. intros H; simpl; rewrite H; reflexivity. Qed.

(** ** One turn of [consumeMessage] *)

Section OneTurn.
Context {js : Builtins}.
Variable topic : string.
Variable options : Options.t.
Let filter := Options.filter options.
Let cb := consumeMessage_callbacks topic options.

Lemma one_turn_quiet (w : WaitOne) o :
  quiet filter o = true -> undisturbed w (dispatch cb w o).
Proof.
  destruct o as [p| | |crash]; simpl; intros Hq; try discriminate; try apply undisturbed_refl.
  destruct (running (consumer (this w))); [|apply undisturbed_refl].
  unfold screen in Hq. subst cb filter. unfold consumeMessage_eachMessage.
  js_unfold.
  destruct (decode (Payload.message p)) as [e|v]; [discriminate|].
  simpl. destruct (accepts (Options.filter options) v) as [e|[|]]; try discriminate.
  simpl. unfold undisturbed; simpl; tauto.
Qed.

Lemma one_turn_match (w : WaitOne) p ev :
  running (consumer (this w)) = true ->
  screen filter p = inr (Some ev) ->
  let w' := dispatch cb w (Deliver p) in
  promise w' = settled_with (Resolved (Some ev)) (promise w)
  /\ consumer (this w') = stopped (consumer (this w))
  /\ timer w' = clear (timer w).
Proof.
  intros Hrun Hs; simpl. rewrite Hrun.
  unfold screen in Hs. subst cb filter. unfold consumeMessage_eachMessage.
  js_unfold.
  destruct (decode (Payload.message p)) as [e|v]; [discriminate|].
  simpl. destruct (accepts (Options.filter options) v) as [e|[|]]; try discriminate.
  injection Hs as <-.
  simpl. destruct (timer w) eqn:Ht, (promise w) eqn:Hp; simpl; rewrite ?Ht, ?Hp; auto.
Qed.

Lemma one_turn_fault (w : WaitOne) p e :
  running (consumer (this w)) = true ->
  screen filter p = inl e ->
  let w' := dispatch cb w (Deliver p) in
  promise w' = settled_with (Rejected e) (promise w)
  /\ consumer (this w') = stopped (consumer (this w))
  /\ timer w' = clear (timer w).
Proof.
  intros Hrun Hs; simpl. rewrite Hrun.
  unfold screen in Hs. subst cb filter. unfold consumeMessage_eachMessage.
  js_unfold.
  destruct (decode (Payload.message p)) as [e'|v].
  - injection Hs as <-. simpl. destruct (timer w) eqn:Ht, (promise w) eqn:Hp; simpl; rewrite ?Ht, ?Hp; auto.
  - simpl. destruct (accepts (Options.filter options) v) as [e'|[|]]; try discriminate.
    injection Hs as <-.
    simpl. destruct (timer w) eqn:Ht, (promise w) eqn:Hp; simpl; rewrite ?Ht, ?Hp; auto.
Qed.

Lemma one_turn_timer (w : WaitOne) d :
  timer w = Armed d ->
  let w' := dispatch cb w TimerFires in
  promise w' = settled_with (Resolved None) (promise w)
  /\ consumer (this w') = consumer (this w)
  /\ timer w' = Fired.
Proof.
  intros Ht; simpl. rewrite Ht. subst cb. simpl.
  unfold consumeMessage_onTimeout. js_unfold. simpl.
  destruct (promise w); simpl; auto.
Qed.

(** No callback touches the cluster or [isConnected]. *)
Lemma one_turn_fault_frame (w : WaitOne) p :
  let w' := dispatch cb w (Deliver p) in
  cluster (this w') = cluster (this w) /\ isConnected (this w') = isConnected (this w).
Proof.
  simpl. destruct (running (consumer (this w))); [|auto].
  subst cb filter. unfold consumeMessage_eachMessage. js_unfold.
  destruct (decode (Payload.message p)) as [e|v].
  - simpl. destruct (timer w) eqn:Ht, (promise w) eqn:Hp; simpl; rewrite ?Ht, ?Hp; auto.
  - simpl. destruct (accepts (Options.filter options) v) as [e|[|]];
      simpl; destruct (timer w) eqn:Ht, (promise w) eqn:Hp; simpl; rewrite ?Ht, ?Hp; auto.
Qed.

Lemma one_turn_timer_frame (w : WaitOne) :
  let w' := dispatch cb w TimerFires in
  cluster (this w') = cluster (this w) /\ isConnected (this w') = isConnected (this w).
Proof.
  simpl. destruct (timer w); auto. subst cb. simpl.
  unfold consumeMessage_onTimeout. js_unfold. simpl.
  destruct (promise w); simpl; auto.
Qed.

(** A quiet stretch of the schedule is passed over: the wait is as it
    was when the next occurrence is taken. *)
Lemma await_quiet_prefix pre : forall (w : WaitOne) rest,
  promise w = Pending ->
  forallb (quiet filter) pre = true ->
  exists w1, undisturbed w w1 /\ await cb w (pre ++ rest) = await cb w1 rest.
Proof.
  induction pre as [|o pre IH]; intros w rest Hp Hq.
  - exists w; split; [apply undisturbed_refl | reflexivity].
  - simpl in Hq. apply andb_true_iff in Hq as [Ho Hpre].
    pose proof (one_turn_quiet w o Ho) as Hu.
    assert (Hp' : promise (dispatch cb w o) = Pending).
    { destruct Hu as (_ & _ & _ & _ & Hpr & _). congruence. }
    destruct (IH (dispatch cb w o) rest Hp' Hpre) as (w1 & Hu1 & Heq).
    exists w1; split; [eapply undisturbed_trans; eauto|].
    rewrite <- app_comm_cons, await_pending_cons by assumption. exact Heq.
Qed.
End OneTurn.

(** ** The whole wait of [consumeMessage] *)

Lemma verdict_quiet_prefix {js : Builtins} filter pre rest :
  forallb (quiet filter) pre = true -> verdict filter (pre ++ rest) = verdict filter rest.
Proof.
  induction pre as [|o pre IH]; simpl; intros H; [reflexivity|].
  apply andb_true_iff in H as [Ho Hpre].
  destruct o as [p| | |crash]; simpl in *; try discriminate; auto.
  destruct (screen filter p) as [e|[ev|]]; try discriminate; auto.
Qed.

(** A schedule splits at its first occurrence that is not quiet. *)
Lemma first_loud {js : Builtins} filter schedule :
  forallb (quiet filter) schedule = true
  \/ exists pre o post,
       schedule = pre ++ o :: post
       /\ forallb (quiet filter) pre = true /\ quiet filter o = false.
Proof.
  induction schedule as [|o rest IH]; [left; reflexivity|].
  destruct (quiet filter o) eqn:Ho.
  - destruct IH as [IH | (pre & o' & post & -> & Hpre & Ho')].
    + left; simpl; rewrite Ho; exact IH.
    + right; exists (o :: pre), o', post; simpl; rewrite Ho; auto.
  - right; exists [], o, rest; auto.
Qed.

Lemma verdict_all_quiet {js : Builtins} filter schedule :
  forallb (quiet filter) schedule = true -> verdict filter schedule = Suspended.
Proof.
  intros H. rewrite <- (List.app_nil_r schedule). rewrite verdict_quiet_prefix by assumption.
  reflexivity.
Qed.

(** The embedded wait ends as [verdict] says, and the consumer is stopped
    and the timer cleared exactly when a record settled the promise. *)
Lemma await_verdict {js : Builtins} topic options schedule : forall (w : WaitOne) d,
  promise w = Pending ->
  running (consumer (this w)) = true ->
  timer w = Armed d ->
  let w' := fst (await (consumeMessage_callbacks topic options) w schedule) in
  completion_of (promise w') = verdict (Options.filter options) schedule
  /\ cluster (this w') = cluster (this w)
  /\ isConnected (this w') = isConnected (this w)
  /\ match verdict (Options.filter options) schedule with
     | Suspended => consumer (this w') = consumer (this w) /\ timer w' = Armed d
     | Returned None => consumer (this w') = consumer (this w) /\ timer w' = Fired
     | Returned (Some _) | Threw _ =>
         consumer (this w') = stopped (consumer (this w)) /\ timer w' = Cleared
     end.
Proof.
  induction schedule as [|o rest IH]; intros w d Hp Hrun Ht.
  - simpl. rewrite Hp. simpl. rewrite Hp. auto.
  - cbv zeta. rewrite await_pending_cons by assumption.
    destruct o as [p| | |crash].
    + simpl verdict. destruct (screen (Options.filter options) p) as [e|[ev|]] eqn:Hs.
      * destruct (one_turn_fault topic options w p e Hrun Hs) as (H1 & H2 & H3).
        destruct (one_turn_fault_frame topic options w p) as (F1 & F2).
        rewrite Hp in H1; cbn [settled_with] in H1. rewrite Ht in H3; cbn [clear] in H3.
        rewrite await_settled by (rewrite H1; discriminate).
        cbn [fst]. rewrite H1. cbn [completion_of]. auto.
      * destruct (one_turn_match topic options w p ev Hrun Hs) as (H1 & H2 & H3).
        destruct (one_turn_fault_frame topic options w p) as (F1 & F2).
        rewrite Hp in H1; cbn [settled_with] in H1. rewrite Ht in H3; cbn [clear] in H3.
        rewrite await_settled by (rewrite H1; discriminate).
        cbn [fst]. rewrite H1. cbn [completion_of]. auto.
      * assert (Hq : quiet (Options.filter options) (Deliver p) = true)
          by (simpl; rewrite Hs; reflexivity).
        destruct (one_turn_quiet topic options w _ Hq) as (U1 & U2 & U3 & U4 & U5 & U6).
        specialize (IH (dispatch (consumeMessage_callbacks topic options) w (Deliver p)) d).
        rewrite U1, U2, U3 in IH. apply IH; congruence.
    + destruct (one_turn_timer topic options w d Ht) as (H1 & H2 & H3).
      destruct (one_turn_timer_frame topic options w) as (F1 & F2).
      rewrite Hp in H1; cbn [settled_with] in H1.
      rewrite await_settled by (rewrite H1; discriminate).
      simpl verdict. cbn [fst]. rewrite H1. cbn [completion_of]. auto.
    + simpl dispatch. simpl verdict. apply IH; assumption.
    + simpl dispatch. simpl verdict. apply IH; assumption.
Qed.

Lemma completed_undisturbed {A L : Type} failure (w : Wait A L) :
  undisturbed w (completed failure w).
Proof.
  unfold completed. destruct (promise w) eqn:Hp; try apply undisturbed_refl.
  js_unfold. unfold undisturbed; simpl. repeat split; auto.
Qed.

Lemma completed_logs_rejection {A L : Type} failure (w : Wait A L) e :
  promise w = Rejected e -> In (ERROR, failure) (logged (this (completed failure w))).
Proof.
  intros Hp. unfold completed. rewrite Hp. js_unfold. simpl.
  apply in_or_app; right; left; reflexivity.
Qed.

Lemma consumeMessage_arms {js : Builtins} kh topic options :
  isConnected kh = true ->
  subscribe_error (cluster kh) topic = None ->
  exists w : WaitOne,
    consumeMessage topic options kh = (inr w, this w)
    /\ promise w = Pending
    /\ timer w = Armed (default 10000%Z (Options.timeout options))
    /\ consumer (this w) = armed_consumer kh topic options
    /\ cluster (this w) = cluster kh
    /\ isConnected (this w) = true.
Proof.
  intros Hc Hs. unfold consumeMessage. js_unfold. rewrite Hc. simpl. rewrite Hs. simpl.
  match goal with |- exists w, (inr ?x, _) = _ /\ _ => exists x end.
  split; [reflexivity|]. simpl. unfold armed_consumer.
  rewrite <- List.app_assoc. simpl. auto.
Qed.

(** [consumeMessage] ends as [verdict] reads the schedule; the consumer
    is stopped when a record settled the wait and only then. *)
Lemma consumeMessage_ends {js : Builtins} kh topic options schedule :
  isConnected kh = true ->
  subscribe_error (cluster kh) topic = None ->
  outcome (await_consumeMessage kh topic options schedule)
    = verdict (Options.filter options) schedule
  /\ consumer (helper_after (await_consumeMessage kh topic options schedule))
     = match verdict (Options.filter options) schedule with
       | Returned (Some _) | Threw _ => stopped (armed_consumer kh topic options)
       | Returned None | Suspended => armed_consumer kh topic options
       end.
Proof.
  intros Hc Hs.
  destruct (consumeMessage_arms kh topic options Hc Hs) as (w & Hw & Hp & Ht & Hcons & _).
  assert (Hrun : running (consumer (this w)) = true) by (rewrite Hcons; reflexivity).
  pose proof (await_verdict topic options schedule w _ Hp Hrun Ht) as Hv.
  cbv zeta in Hv. destruct Hv as (Hv & _ & _ & Hm).
  unfold await_consumeMessage, call. rewrite Hw.
  destruct (await (consumeMessage_callbacks topic options) w schedule) as [w' rest].
  cbn [fst] in *. cbn [outcome helper_after].
  destruct (completed_undisturbed ("Failed to consume message from topic: " ++ topic)%string w')
    as (U1 & _ & _ & _ & U5 & _).
  rewrite U1, U5. split.
  - rewrite <- Hv. destruct (promise w'); reflexivity.
  - rewrite <- Hcons.
    destruct (verdict (Options.filter options) schedule) as [[ev|]|e|]; tauto.
Qed.

(** A record on which [eachMessage] throws ends the call on the spot. *)
Lemma consumeMessage_stops_at_fault {js : Builtins} kh topic options pre p e post :
  isConnected kh = true ->
  subscribe_error (cluster kh) topic = None ->
  forallb (quiet (Options.filter options)) pre = true ->
  screen (Options.filter options) p = inl e ->
  exists w : WaitOne,
    await_consumeMessage kh topic options (pre ++ Deliver p :: post) = Waited w post
    /\ promise w = Rejected e
    /\ timer w = Cleared
    /\ In (ERROR, ("Failed to consume message from topic: " ++ topic)%string)
          (logged (this w)).
Proof.
  intros Hc Hs Hq Hf.
  destruct (consumeMessage_arms kh topic options Hc Hs) as (w & Hw & Hp & Ht & Hcons & _).
  destruct (await_quiet_prefix topic options pre w (Deliver p :: post) Hp Hq)
    as (w1 & (U1 & _ & _ & U4 & U5 & _) & Heq).
  assert (Hrun : running (consumer (this w1)) = true) by (rewrite U1, Hcons; reflexivity).
  destruct (one_turn_fault topic options w1 p e Hrun Hf) as (H1 & H2 & H3).
  rewrite U5, Hp in H1. cbn [settled_with] in H1.
  rewrite U4, Ht in H3. cbn [clear] in H3.
  unfold await_consumeMessage, call. rewrite Hw, Heq.
  rewrite await_pending_cons by congruence.
  rewrite await_settled by (rewrite H1; discriminate).
  eexists; split; [reflexivity|].
  destruct (completed_undisturbed ("Failed to consume message from topic: " ++ topic)%string
              (dispatch (consumeMessage_callbacks topic options) w1 (Deliver p)))
    as (_ & _ & _ & V4 & V5 & _).
  rewrite V4, V5. repeat split; auto.
  eapply completed_logs_rejection; eauto.
Qed.

(** *** How a schedule decides the completion *)

Lemma verdict_matched {js : Builtins} filter schedule ev :
  verdict filter schedule = Returned (Some ev)
  <-> exists pre p post,
        schedule = pre ++ Deliver p :: post
        /\ forallb (quiet filter) pre = true
        /\ screen filter p = inr (Some ev).
Proof.
  split.
  - intros Hv. destruct (first_loud filter schedule) as [Hq | (pre & o & post & -> & Hq & Ho)].
    + rewrite verdict_all_quiet in Hv by assumption. discriminate.
    + rewrite verdict_quiet_prefix in Hv by assumption.
      destruct o as [p| | |crash]; simpl in Hv, Ho; try discriminate.
      exists pre, p, post. repeat split; auto.
      destruct (screen filter p) as [e|[ev'|]]; congruence.
  - intros (pre & p & post & -> & Hq & Hs).
    rewrite verdict_quiet_prefix by assumption. simpl. rewrite Hs. reflexivity.
Qed.

Lemma verdict_timed_out {js : Builtins} filter schedule :
  verdict filter schedule = Returned None
  <-> exists pre post,
        schedule = pre ++ TimerFires :: post /\ forallb (quiet filter) pre = true.
Proof.
  split.
  - intros Hv. destruct (first_loud filter schedule) as [Hq | (pre & o & post & -> & Hq & Ho)].
    + rewrite verdict_all_quiet in Hv by assumption. discriminate.
    + rewrite verdict_quiet_prefix in Hv by assumption.
      destruct o as [p| | |crash]; simpl in Hv, Ho; try discriminate.
      * destruct (screen filter p) as [e|[ev'|]]; congruence.
      * exists pre, post; auto.
  - intros (pre & post & -> & Hq).
    rewrite verdict_quiet_prefix by assumption. reflexivity.
Qed.

Lemma verdict_threw {js : Builtins} filter schedule e :
  verdict filter schedule = Threw e
  <-> exists pre p post,
        schedule = pre ++ Deliver p :: post
        /\ forallb (quiet filter) pre = true
        /\ screen filter p = inl e.
Proof.
  split.
  - intros Hv. destruct (first_loud filter schedule) as [Hq | (pre & o & post & -> & Hq & Ho)].
    + rewrite verdict_all_quiet in Hv by assumption. discriminate.
    + rewrite verdict_quiet_prefix in Hv by assumption.
      destruct o as [p| | |crash]; simpl in Hv, Ho; try discriminate.
      exists pre, p, post. repeat split; auto.
      destruct (screen filter p) as [e'|[ev'|]]; congruence.
  - intros (pre & p & post & -> & Hq & Hs).
    rewrite verdict_quiet_prefix by assumption. simpl. rewrite Hs. reflexivity.
Qed.

(** Before a promise exists: the connection test, then [subscribe]. *)
Lemma consumeMessage_subscribe_fails {js : Builtins} kh topic options e schedule :
  isConnected kh = true ->
  subscribe_error (cluster kh) topic = Some e ->
  outcome (await_consumeMessage kh topic options schedule) = Threw e.
Proof.
  intros Hc Hs. unfold await_consumeMessage, call, consumeMessage. js_unfold.
  rewrite Hc. simpl. rewrite Hs. reflexivity.
Qed.

(** The direction of the characterisation used for composed calls. *)
Lemma consumeMessage_returns_earliest {js : Builtins} kh topic options schedule ev :
  isConnected kh = true ->
  subscribe_error (cluster kh) topic = None ->
  (exists pre p post,
     schedule = pre ++ Deliver p :: post
     /\ forallb (quiet (Options.filter options)) pre = true
     /\ screen (Options.filter options) p = inr (Some ev)) ->
  outcome (await_consumeMessage kh topic options schedule) = Returned (Some ev).
Proof.
  intros Hc Hs H.
  destruct (consumeMessage_ends kh topic options schedule Hc Hs) as [-> _].
  apply verdict_matched. exact H.
Qed.

(** ** C8: the earliest match *)

(** C8, as the code has it. On a connected helper whose [subscribe]
    succeeds: when every occurrence before a record is a record that
    decodes and that the filter turns down (or a report of the client
    library), and the record decodes to a value the filter accepts,
    [consumeMessage] returns the event of that record: its topic,
    partition, offset and timestamp, its key, and the decoded value,
    whatever records come after it, matching or not. And an event is
    returned in no other way: it is always that of the first record the
    filter did not turn down. *)
Theorem consumeMessage_returns_earliest_match {js : Builtins} kh topic options :
  isConnected kh = true ->
  subscribe_error (cluster kh) topic = None ->
  (forall pre p v post,
     forallb (quiet (Options.filter options)) pre = true ->
     decode (Payload.message p) = inr v ->
     accepts (Options.filter options) v = inr true ->
     outcome (await_consumeMessage kh topic options (pre ++ Deliver p :: post))
     = Returned (Some (Event.make (Payload.topic p) (Payload.partition p)
                         (Message.offset (Payload.message p))
                         (Message.key (Payload.message p))
                         v
                         (Message.timestamp (Payload.message p)))))
  /\ (forall schedule ev,
        outcome (await_consumeMessage kh topic options schedule) = Returned (Some ev) ->
        exists pre p v post,
          schedule = pre ++ Deliver p :: post
          /\ forallb (quiet (Options.filter options)) pre = true
          /\ decode (Payload.message p) = inr v
          /\ accepts (Options.filter options) v = inr true
          /\ ev = Event.make (Payload.topic p) (Payload.partition p)
                    (Message.offset (Payload.message p))
                    (Message.key (Payload.message p))
                    v
                    (Message.timestamp (Payload.message p))).
Proof.
  intros Hc Hs. split.
  - intros pre p v post Hq Hd Ha.
    destruct (consumeMessage_ends kh topic options (pre ++ Deliver p :: post) Hc Hs)
      as [-> _].
    rewrite verdict_quiet_prefix by exact Hq.
    cbn [verdict]. unfold screen. rewrite Hd, Ha. reflexivity.
  - intros schedule ev Ho.
    destruct (consumeMessage_ends kh topic options schedule Hc Hs) as [Hv _].
    rewrite Hv in Ho. apply verdict_matched in Ho.
    destruct Ho as (pre & p & post & -> & Hq & Hscreen).
    unfold screen in Hscreen.
    destruct (decode (Payload.message p)) as [e|v] eqn:Hd; [discriminate|].
    destruct (accepts (Options.filter options) v) as [e|[|]] eqn:Ha; try discriminate.
    exists pre, p, v, post. repeat split; auto.
    injection Hscreen as <-. reflexivity.
Qed.

Lemma consumeMessage_returns_earliest_match_witness :
  isConnected connected_helper = true
  /\ subscribe_error (cluster connected_helper) "order-events" = None
  /\ outcome
       (await_consumeMessage connected_helper "order-events" (with_filter order_is_X)
          ([Deliver (record other_order "0")]
             ++ Deliver (record order_created "1")
             :: [Deliver (record order_shipped "2"); TimerFires]))
     = Returned (Some (Event.make "order-events" 0%Z "1" None order_created "1700000000000")).
Proof.
  split; [reflexivity|]. split; [reflexivity|].
  apply (proj1 (consumeMessage_returns_earliest_match connected_helper "order-events"
                  (with_filter order_is_X) eq_refl eq_refl)
           [Deliver (record other_order "0")] (record order_created "1") order_created
           [Deliver (record order_shipped "2"); TimerFires]); reflexivity.
Defined.

(** C8 fails on the code: two records satisfy the filter, and the call
    does not return the first of them, nor any, because a record handed
    over before them does not decode: it throws. *)
Lemma earlier_faulty_record_hides_the_first_match :
  order_is_X order_created = inr true
  /\ order_is_X order_shipped = inr true
  /\ outcome
       (await_consumeMessage connected_helper "order-events" (with_filter order_is_X)
          [Deliver (garbled "0"); Deliver (record order_created "1");
           Deliver (record order_shipped "2"); TimerFires])
     = Threw (SyntaxError "Unexpected token in JSON")
  /\ outcome
       (await_consumeMessage connected_helper "order-events" (with_filter order_is_X)
          [Deliver (garbled "0"); Deliver (record order_created "1");
           Deliver (record order_shipped "2"); TimerFires])
     <> Returned (Some (Event.make "order-events" 0%Z "1" None order_created
                          "1700000000000")).
Proof.
  assert (E : outcome
               (await_consumeMessage connected_helper "order-events"
                  (with_filter order_is_X)
                  [Deliver (garbled "0"); Deliver (record order_created "1");
                   Deliver (record order_shipped "2"); TimerFires])
             = Threw (SyntaxError "Unexpected token in JSON")) by reflexivity.
  split; [reflexivity|]. split; [reflexivity|]. split; [exact E|].
  rewrite E. discriminate.
Qed.

(** ** C3: no match is [null], an error is a rejection *)

(** C3, as the code has it. On a connected helper: when [subscribe]
    succeeds and no record handed over before the timer expires passes
    the filter (each decodes and is turned down), [consumeMessage]
    returns [null] when the timer fires, also when the client library
    has reported a disconnect or a crash in between; [null] is returned
    in no other way; a record that fails to decode, or on which the
    filter raises, before that makes the call throw that error; and when
    [subscribe] fails the call throws its error. *)
Theorem consumeMessage_no_match_is_null_error_is_thrown {js : Builtins} kh topic options :
  isConnected kh = true ->
  (subscribe_error (cluster kh) topic = None ->
   (forall pre post,
      forallb (quiet (Options.filter options)) pre = true ->
      outcome (await_consumeMessage kh topic options (pre ++ TimerFires :: post))
        = Returned None)
   /\ (forall schedule,
         outcome (await_consumeMessage kh topic options schedule) = Returned None ->
         exists pre post,
           schedule = pre ++ TimerFires :: post
           /\ forallb (quiet (Options.filter options)) pre = true)
   /\ (forall pre p e post,
         forallb (quiet (Options.filter options)) pre = true ->
         screen (Options.filter options) p = inl e ->
         outcome (await_consumeMessage kh topic options (pre ++ Deliver p :: post))
           = Threw e))
  /\ (forall e schedule,
        subscribe_error (cluster kh) topic = Some e ->
        outcome (await_consumeMessage kh topic options schedule) = Threw e).
Proof.
  intros Hc. split.
  - intros Hs. repeat split.
    + intros pre post Hq.
      destruct (consumeMessage_ends kh topic options (pre ++ TimerFires :: post) Hc Hs)
        as [-> _].
      apply verdict_timed_out. eauto.
    + intros schedule Ho.
      destruct (consumeMessage_ends kh topic options schedule Hc Hs) as [Hv _].
      rewrite Hv in Ho. apply verdict_timed_out. exact Ho.
    + intros pre p e post Hq Hf.
      destruct (consumeMessage_ends kh topic options (pre ++ Deliver p :: post) Hc Hs)
        as [-> _].
      apply verdict_threw. eauto 6.
  - intros e schedule Hs. apply consumeMessage_subscribe_fails; assumption.
Qed.

Lemma consumeMessage_no_match_is_null_error_is_thrown_witness :
  isConnected connected_helper = true
  /\ outcome
       (await_consumeMessage connected_helper "order-events" (with_filter order_is_X)
          ([Deliver (record other_order "0")] ++ TimerFires :: [Deliver (record order_created "1")]))
     = Returned None
  /\ outcome
       (await_consumeMessage connected_helper "order-events" (with_filter order_is_X)
          ([Deliver (record other_order "0")] ++ Deliver (garbled "1") :: [TimerFires]))
     = Threw (SyntaxError "Unexpected token in JSON").
Proof.
  split; [reflexivity|].
  destruct (consumeMessage_no_match_is_null_error_is_thrown connected_helper "order-events"
              (with_filter order_is_X) eq_refl) as [H _].
  destruct (H eq_refl) as (Hnull & _ & Hthrow).
  split.
  - apply Hnull. reflexivity.
  - apply Hthrow; reflexivity.
Defined.

(** C3 fails on the code: the client library gives up on the consumer
    during the wait, and the call does not throw; when the timer fires
    it returns the timeout result, [null], exactly as the call during
    which nothing failed. *)
Lemma crash_during_wait_returns_the_timeout_result :
  outcome
    (await_consumeMessage connected_helper "order-events" (with_filter order_is_X)
       [Deliver (record other_order "0"); Crashed (KafkaJSError "Connection timeout");
        TimerFires])
  = Returned None
  /\ outcome
       (await_consumeMessage connected_helper "order-events" (with_filter order_is_X)
          [Deliver (record other_order "0"); Crashed (KafkaJSError "Connection timeout");
           TimerFires])
     <> Threw (KafkaJSError "Connection timeout")
  /\ outcome
       (await_consumeMessage connected_helper "order-events" (with_filter order_is_X)
          [Deliver (record other_order "0"); TimerFires])
     = Returned None.
Proof.
  assert (E : outcome
               (await_consumeMessage connected_helper "order-events"
                  (with_filter order_is_X)
                  [Deliver (record other_order "0");
                   Crashed (KafkaJSError "Connection timeout"); TimerFires])
             = Returned None) by reflexivity.
  split; [exact E|]. split; [rewrite E; discriminate | reflexivity].
Qed.

(** ** C1: a record on which [eachMessage] throws *)

(** C1, as the code has it. On a connected helper whose [subscribe]
    succeeds, when the first record that is not turned down by the filter
    fails to decode, or makes the filter raise, [consumeMessage] clears
    the timer, stops the consumer and rejects: the call throws that
    error, after logging it, and the occurrences after the record are not
    observed. *)
Theorem consumeMessage_faulty_candidate_rejects {js : Builtins} kh topic options pre p e post :
  isConnected kh = true ->
  subscribe_error (cluster kh) topic = None ->
  forallb (quiet (Options.filter options)) pre = true ->
  screen (Options.filter options) p = inl e ->
  exists w : WaitOne,
    await_consumeMessage kh topic options (pre ++ Deliver p :: post) = Waited w post
    /\ outcome (Waited w post) = Threw e
    /\ timer w = Cleared
    /\ running (consumer (this w)) = false
    /\ In (ERROR, ("Failed to consume message from topic: " ++ topic)%string)
          (logged (this w)).
Proof.
  intros Hc Hs Hq Hf.
  destruct (consumeMessage_stops_at_fault kh topic options pre p e post Hc Hs Hq Hf)
    as (w & Hw & Hp & Ht & Hl).
  exists w. repeat split; auto.
  - simpl. rewrite Hp. reflexivity.
  - destruct (consumeMessage_ends kh topic options (pre ++ Deliver p :: post) Hc Hs)
      as [_ Hcons].
    assert (Hv : verdict (Options.filter options) (pre ++ Deliver p :: post) = Threw e)
      by (apply verdict_threw; eauto 6).
    rewrite Hv, Hw in Hcons. simpl in Hcons. rewrite Hcons. reflexivity.
Qed.

Lemma consumeMessage_faulty_candidate_rejects_witness :
  isConnected connected_helper = true
  /\ subscribe_error (cluster connected_helper) "order-events" = None
  /\ exists w : WaitOne,
       await_consumeMessage connected_helper "order-events" (with_filter order_is_X)
         ([Deliver (record other_order "0")]
            ++ Deliver (garbled "1") :: [Deliver (record order_created "2"); TimerFires])
       = Waited w [Deliver (record order_created "2"); TimerFires]
       /\ outcome (Waited w [Deliver (record order_created "2"); TimerFires])
          = Threw (SyntaxError "Unexpected token in JSON")
       /\ timer w = Cleared
       /\ running (consumer (this w)) = false
       /\ In (ERROR, "Failed to consume message from topic: order-events")
             (logged (this w)).
Proof.
  split; [reflexivity|]. split; [reflexivity|].
  apply (consumeMessage_faulty_candidate_rejects connected_helper "order-events"
           (with_filter order_is_X) [Deliver (record other_order "0")] (garbled "1")
           (SyntaxError "Unexpected token in JSON")
           [Deliver (record order_created "2"); TimerFires]); reflexivity.
Defined.

(** C1 fails on the code: an undecodable record, and a record on which
    the filter raises, each make the call throw although the next record
    matches; without the faulty record the same waits return that
    match. *)
Lemma consumeMessage_faulty_candidate_aborts_wait :
  outcome
    (await_consumeMessage connected_helper "order-events" Options.empty
       [Deliver (garbled "0"); Deliver (record order_created "1"); TimerFires])
  = Threw (SyntaxError "Unexpected token in JSON")
  /\ outcome
       (await_consumeMessage connected_helper "order-events" Options.empty
          [Deliver (garbled "0"); Deliver (record order_created "1"); TimerFires])
     <> Returned (Some (event_of (record order_created "1") order_created))
  /\ outcome
       (await_consumeMessage connected_helper "order-events" Options.empty
          [Deliver (record order_created "1"); TimerFires])
     = Returned (Some (event_of (record order_created "1") order_created))
  /\ outcome
       (await_consumeMessage connected_helper "order-events" (with_filter details_code_is_7)
          [Deliver (record other_order "0"); Deliver (record order_with_details "1");
           TimerFires])
     = Threw (TypeError "Cannot read properties of undefined (reading 'code')")
  /\ outcome
       (await_consumeMessage connected_helper "order-events" (with_filter details_code_is_7)
          [Deliver (record order_with_details "1"); TimerFires])
     = Returned (Some (event_of (record order_with_details "1") order_with_details)).
Proof.
  assert (E : outcome
               (await_consumeMessage connected_helper "order-events" Options.empty
                  [Deliver (garbled "0"); Deliver (record order_created "1"); TimerFires])
             = Threw (SyntaxError "Unexpected token in JSON")) by reflexivity.
  split; [exact E|]. split; [rewrite E; discriminate|].
  repeat split; reflexivity.
Qed.

(** ** One turn of [consumeMessages] *)

Section ManyTurn.
Context {js : Builtins}.
Variable options : Options.t.
Let filter := Options.filter options.
Let cap := default 10%Z (Options.maxMessages options).
Let cb := consumeMessages_callbacks options.

Lemma many_turn_skip (w : WaitMany) o :
  quiet filter o = true -> dispatch cb w o = w.
Proof.
  destruct o as [p| | |crash]; simpl; intros Hq; try discriminate; auto.
  destruct (running (consumer (this w))); auto.
  unfold screen in Hq. subst cb filter cap. unfold consumeMessages_eachMessage. js_unfold.
  destruct (decode (Payload.message p)) as [e|v]; [discriminate|].
  simpl. destruct (accepts (Options.filter options) v) as [e|[|]]; try discriminate.
  reflexivity.
Qed.

Lemma many_turn_push (w : WaitMany) p ev :
  running (consumer (this w)) = true ->
  screen filter p = inr (Some ev) ->
  dispatch cb w (Deliver p)
  = if Z.geb (Z.of_nat (List.length (locals w ++ [ev]))) cap
    then mkWait (stop_consumer (this w)) (clear (timer w))
           (settled_with (Resolved messages) (promise w)) (locals w ++ [ev])
    else mkWait (this w) (timer w) (promise w) (locals w ++ [ev]).
Proof.
  intros Hrun Hs. simpl. rewrite Hrun.
  unfold screen in Hs. subst cb filter cap. unfold consumeMessages_eachMessage.
  unfold stop_consumer. js_unfold.
  destruct (decode (Payload.message p)) as [e|v]; [discriminate|].
  simpl. destruct (accepts (Options.filter options) v) as [e|[|]]; try discriminate.
  injection Hs as <-. simpl.
  destruct (Z.geb _ _); simpl; [|reflexivity].
  destruct (timer w) eqn:Ht, (promise w) eqn:Hp; simpl; rewrite ?Ht, ?Hp; reflexivity.
Qed.

Lemma many_turn_fault (w : WaitMany) p e :
  running (consumer (this w)) = true ->
  screen filter p = inl e ->
  dispatch cb w (Deliver p)
  = mkWait (stop_consumer (this w)) (clear (timer w))
      (settled_with (Rejected e) (promise w)) (locals w).
Proof.
  intros Hrun Hs. simpl. rewrite Hrun.
  unfold screen in Hs. subst cb filter cap. unfold consumeMessages_eachMessage.
  unfold stop_consumer. js_unfold.
  destruct (decode (Payload.message p)) as [e'|v].
  - injection Hs as <-. simpl.
    destruct (timer w) eqn:Ht, (promise w) eqn:Hp; simpl; rewrite ?Ht, ?Hp; reflexivity.
  - simpl. destruct (accepts (Options.filter options) v) as [e'|[|]]; try discriminate.
    injection Hs as <-. simpl.
    destruct (timer w) eqn:Ht, (promise w) eqn:Hp; simpl; rewrite ?Ht, ?Hp; reflexivity.
Qed.

Lemma many_turn_timer (w : WaitMany) d :
  timer w = Armed d ->
  let w' := dispatch cb w TimerFires in
  promise w' = settled_with (Resolved messages) (promise w)
  /\ consumer (this w') = consumer (this w)
  /\ timer w' = Fired
  /\ locals w' = locals w.
Proof.
  intros Ht; simpl. rewrite Ht. subst cb. simpl.
  unfold consumeMessages_onTimeout. js_unfold. simpl.
  destruct (promise w); simpl; auto.
Qed.
End ManyTurn.

(** ** The whole wait of [consumeMessages] *)

Lemma wait_eta {A L : Type} (w : Wait A L) :
  mkWait (this w) (timer w) (promise w) (locals w) = w.
Proof. destruct w; reflexivity. Qed.

Lemma matches_app {js : Builtins} filter s1 s2 :
  matches filter (s1 ++ s2) = matches filter s1 ++ matches filter s2.
Proof.
  induction s1 as [|o s1 IH]; simpl; [reflexivity|].
  destruct o as [p| | |crash]; auto.
  destruct (screen filter p) as [e|[ev|]]; simpl; congruence.
Qed.

(** While the cap is not reached and nothing throws, the records that
    pass the filter are appended to [messages], and nothing else
    changes. *)
Lemma await_gathering {js : Builtins} options pre : forall (w : WaitMany) rest,
  promise w = Pending ->
  running (consumer (this w)) = true ->
  forallb (faultless (Options.filter options)) pre = true ->
  (Z.of_nat (List.length (locals w))
     + Z.of_nat (List.length (matches (Options.filter options) pre))
   < Z.max 1 (default 10 (Options.maxMessages options)))%Z ->
  await (consumeMessages_callbacks options) w (pre ++ rest)
  = await (consumeMessages_callbacks options)
      (mkWait (this w) (timer w) (promise w)
         (locals w ++ matches (Options.filter options) pre))
      rest.
Proof.
  induction pre as [|o pre IH]; intros w rest Hp Hrun Hf Hlen.
  - simpl. rewrite List.app_nil_r, wait_eta. reflexivity.
  - simpl in Hf. apply andb_true_iff in Hf as [Ho Hpre].
    rewrite <- app_comm_cons, await_pending_cons by assumption.
    destruct o as [p| | |crash]; try discriminate.
    + simpl in Ho. cbn [matches] in *.
      destruct (screen (Options.filter options) p) as [e|[ev|]] eqn:Hs; try discriminate.
      * rewrite (many_turn_push options w p ev Hrun Hs).
        rewrite length_app. cbn [List.length] in *.
        replace (Z.geb _ _) with false by (symmetry; rewrite Z.geb_leb; apply Z.leb_gt; lia).
        rewrite IH; cbn [this timer promise locals]; auto.
        -- rewrite <- List.app_assoc. reflexivity.
        -- rewrite length_app. cbn [List.length]. lia.
      * rewrite many_turn_skip by (simpl; rewrite Hs; reflexivity).
        apply IH; auto.
    + simpl dispatch. cbn [matches]. apply IH; auto.
    + simpl dispatch. cbn [matches]. apply IH; auto.
Qed.

Lemma consumeMessages_arms {js : Builtins} kh topic options :
  isConnected kh = true ->
  subscribe_error (cluster kh) topic = None ->
  exists w : WaitMany,
    consumeMessages topic options kh = (inr w, this w)
    /\ promise w = Pending
    /\ timer w = Armed (default 10000%Z (Options.timeout options))
    /\ consumer (this w) = armed_consumer kh topic options
    /\ locals w = []
    /\ cluster (this w) = cluster kh
    /\ isConnected (this w) = true.
Proof.
  intros Hc Hs. unfold consumeMessages. js_unfold. rewrite Hc. simpl. rewrite Hs. simpl.
  match goal with |- exists w, (inr ?x, _) = _ /\ _ => exists x end.
  split; [reflexivity|]. simpl. unfold armed_consumer.
  rewrite <- List.app_assoc. simpl. repeat split; auto.
Qed.

(** The cap in force: a cap below 1 acts as 1, since the test comes after
    the push. *)
Lemma cap_reached (len cap : Z) :
  (1 <= len)%Z -> Z.geb len cap = Z.geb len (Z.max 1 cap).
Proof.
  intros H. rewrite !Z.geb_leb.
  destruct (Z.leb_spec cap len), (Z.leb_spec (Z.max 1 cap) len); auto; lia.
Qed.

(** The call that reaches its cap: it ends at the record that fills
    [messages]. *)
Lemma consumeMessages_fills {js : Builtins} kh topic options pre p ev post :
  isConnected kh = true ->
  subscribe_error (cluster kh) topic = None ->
  forallb (faultless (Options.filter options)) pre = true ->
  screen (Options.filter options) p = inr (Some ev) ->
  (Z.of_nat (List.length (matches (Options.filter options) pre)) + 1
   = Z.max 1 (default 10 (Options.maxMessages options)))%Z ->
  exists w : WaitMany,
    await_consumeMessages kh topic options (pre ++ Deliver p :: post) = Waited w post
    /\ promise w = Resolved messages
    /\ locals w = matches (Options.filter options) pre ++ [ev]
    /\ timer w = Cleared
    /\ consumer (this w) = stopped (armed_consumer kh topic options).
Proof.
  intros Hc Hs Hf Hm Hlen.
  destruct (consumeMessages_arms kh topic options Hc Hs)
    as (w & Hw & Hp & Ht & Hcons & Hloc & _).
  assert (Hrun : running (consumer (this w)) = true) by (rewrite Hcons; reflexivity).
  unfold await_consumeMessages, call. rewrite Hw.
  rewrite await_gathering by (auto; rewrite Hloc; simpl; lia).
  rewrite await_pending_cons by assumption.
  rewrite many_turn_push with (ev := ev) by assumption.
  cbn [this timer promise locals]. rewrite Hloc, Hp, Ht. cbn [app clear settled_with].
  rewrite cap_reached by (rewrite length_app; simpl; lia).
  replace (Z.geb _ _) with true
    by (symmetry; rewrite Z.geb_leb; apply Z.leb_le; rewrite length_app; simpl; lia).
  rewrite await_settled by discriminate.
  eexists; split; [reflexivity|]. unfold completed. simpl.
  rewrite Hcons. auto.
Qed.

(** The call whose timer expires first: it ends with what [messages]
    holds then, and the consumer is as [consumer.run] left it. *)
Lemma consumeMessages_times_out {js : Builtins} kh topic options pre post :
  isConnected kh = true ->
  subscribe_error (cluster kh) topic = None ->
  forallb (faultless (Options.filter options)) pre = true ->
  (Z.of_nat (List.length (matches (Options.filter options) pre))
   < Z.max 1 (default 10 (Options.maxMessages options)))%Z ->
  exists w : WaitMany,
    await_consumeMessages kh topic options (pre ++ TimerFires :: post) = Waited w post
    /\ promise w = Resolved messages
    /\ locals w = matches (Options.filter options) pre
    /\ timer w = Fired
    /\ consumer (this w) = armed_consumer kh topic options.
Proof.
  intros Hc Hs Hf Hlen.
  destruct (consumeMessages_arms kh topic options Hc Hs)
    as (w & Hw & Hp & Ht & Hcons & Hloc & _).
  assert (Hrun : running (consumer (this w)) = true) by (rewrite Hcons; reflexivity).
  unfold await_consumeMessages, call. rewrite Hw.
  rewrite await_gathering by (auto; rewrite Hloc; simpl; lia).
  rewrite await_pending_cons by assumption.
  rewrite Hloc, Hp, Ht. cbn [app].
  match goal with |- context [dispatch ?cb ?w0 TimerFires] =>
    destruct (many_turn_timer options w0 _ eq_refl) as (H1 & H2 & H3 & H4)
  end.
  cbn [this timer promise locals settled_with] in H1, H2, H3, H4.
  rewrite await_settled by (rewrite H1; discriminate).
  eexists; split; [reflexivity|]. unfold completed. rewrite H1.
  rewrite H2, H3, H4. auto.
Qed.

(** Whatever the schedule, [messages] holds a stretch of the records that
    pass the filter, from the first one on, one element per delivery;
    the consumer has been stopped at most once. *)
Lemma await_collects {js : Builtins} options schedule : forall (w : WaitMany),
  promise w = Pending ->
  running (consumer (this w)) = true ->
  let w' := fst (await (consumeMessages_callbacks options) w schedule) in
  (exists taken left,
     matches (Options.filter options) schedule = taken ++ left
     /\ locals w' = locals w ++ taken)
  /\ (consumer (this w') = consumer (this w)
      \/ consumer (this w') = stopped (consumer (this w))).
Proof.
  induction schedule as [|o rest IH]; intros w Hp Hrun; cbv zeta.
  - simpl. rewrite Hp. simpl. split; [exists [], []|]; rewrite ?List.app_nil_r; auto.
  - rewrite await_pending_cons by assumption.
    destruct o as [p| | |crash].
    + cbn [matches].
      destruct (screen (Options.filter options) p) as [e|[ev|]] eqn:Hs.
      * rewrite (many_turn_fault options w p e Hrun Hs), Hp.
        rewrite await_settled by discriminate. simpl.
        split; [exists [], (matches (Options.filter options) rest)|];
          rewrite ?List.app_nil_r; auto.
      * rewrite (many_turn_push options w p ev Hrun Hs), Hp.
        destruct (Z.geb _ _).
        -- rewrite await_settled by discriminate. simpl.
           split; [exists [ev], (matches (Options.filter options) rest)|]; auto.
        -- match goal with |- context [await _ ?w0 rest] =>
             destruct (IH w0 eq_refl Hrun) as ((taken & left & Hm & Hl) & Hc)
           end.
           cbn [this locals] in Hl, Hc.
           split; [exists (ev :: taken), left|]; auto.
           rewrite Hm, Hl, <- List.app_assoc. auto.
      * rewrite many_turn_skip by (simpl; rewrite Hs; reflexivity).
        apply IH; auto.
    + cbn [matches]. destruct (timer w) as [d| |] eqn:Ht.
      * destruct (many_turn_timer options w d Ht) as (H1 & H2 & H3 & H4).
        rewrite Hp in H1. cbn [settled_with] in H1.
        rewrite await_settled by (rewrite H1; discriminate).
        cbn [fst]. rewrite H2, H4.
        split; [exists [], (matches (Options.filter options) rest)|];
          rewrite ?List.app_nil_r; auto.
      * simpl dispatch. rewrite Ht. apply IH; auto.
      * simpl dispatch. rewrite Ht. apply IH; auto.
    + simpl dispatch. cbn [matches]. apply IH; auto.
    + simpl dispatch. cbn [matches]. apply IH; auto.
Qed.

(** ** C4: the cap and the deadline of [consumeMessages] *)

(** C4, as the code has it. On a connected helper whose [subscribe]
    succeeds, with K the cap [maxMessages] or 1 if the cap is below 1,
    and as long as no record throws: (1) at the K-th record that passes
    the filter, before the timer, [consumeMessages] returns at once, the
    rest of the schedule unobserved, with exactly K events, the first K
    matches of the schedule in arrival order; (2) when the timer fires
    after fewer than K matches, it returns, without an error, the matches
    gathered so far in arrival order, none if there was none. *)
Theorem consumeMessages_returns_first_matches {js : Builtins} kh topic options :
  isConnected kh = true ->
  subscribe_error (cluster kh) topic = None ->
  let filter := Options.filter options in
  let K := Z.max 1%Z (default 10%Z (Options.maxMessages options)) in
  (forall pre p ev post,
     forallb (faultless filter) pre = true ->
     screen filter p = inr (Some ev) ->
     (Z.of_nat (List.length (matches filter pre)) + 1 = K)%Z ->
     exists w : WaitMany,
       await_consumeMessages kh topic options (pre ++ Deliver p :: post) = Waited w post
       /\ returned_messages (Waited w post) = Some (matches filter pre ++ [ev])
       /\ Z.of_nat (List.length (matches filter pre ++ [ev])) = K
       /\ matches filter pre ++ [ev]
          = firstn (Z.to_nat K) (matches filter (pre ++ Deliver p :: post)))
  /\ (forall pre post,
        forallb (faultless filter) pre = true ->
        (Z.of_nat (List.length (matches filter pre)) < K)%Z ->
        exists w : WaitMany,
          await_consumeMessages kh topic options (pre ++ TimerFires :: post) = Waited w post
          /\ returned_messages (Waited w post) = Some (matches filter pre)).
Proof.
  intros Hc Hs filter K. split.
  - intros pre p ev post Hf Hm Hlen.
    destruct (consumeMessages_fills kh topic options pre p ev post Hc Hs Hf Hm Hlen)
      as (w & Hw & Hp & Hl & _).
    exists w. split; [exact Hw|]. split; [|split].
    + simpl. rewrite Hp. simpl. rewrite Hl. reflexivity.
    + rewrite length_app. simpl. lia.
    + rewrite matches_app. cbn [matches]. fold filter. rewrite Hm.
      change (ev :: matches filter post) with ([ev] ++ matches filter post).
      rewrite List.app_assoc.
      replace (Z.to_nat K) with (List.length (matches filter pre ++ [ev]) + 0)%nat
        by (rewrite length_app; simpl; lia).
      rewrite firstn_app_2. simpl. rewrite List.app_nil_r. reflexivity.
  - intros pre post Hf Hlen.
    destruct (consumeMessages_times_out kh topic options pre post Hc Hs Hf Hlen)
      as (w & Hw & Hp & Hl & _).
    exists w. split; [exact Hw|]. simpl. rewrite Hp. simpl. rewrite Hl. reflexivity.
Qed.

Lemma consumeMessages_returns_first_matches_witness :
  isConnected connected_helper = true
  /\ subscribe_error (cluster connected_helper) "order-events" = None
  /\ (exists w : WaitMany,
        await_consumeMessages connected_helper "order-events"
          (Options.make (Some order_is_X) None None (Some 2%Z))
          ([Deliver (record order_created "0"); Deliver (record other_order "1")]
             ++ Deliver (record order_shipped "2") :: [Deliver (record order_created "3")])
        = Waited w [Deliver (record order_created "3")]
        /\ returned_messages (Waited w [Deliver (record order_created "3")])
           = Some [event_of (record order_created "0") order_created;
                   event_of (record order_shipped "2") order_shipped])
  /\ (exists w : WaitMany,
        await_consumeMessages connected_helper "order-events"
          (Options.make (Some order_is_X) None None (Some 2%Z))
          ([Deliver (record order_created "0"); Deliver (record other_order "1")]
             ++ TimerFires :: [Deliver (record order_shipped "2")])
        = Waited w [Deliver (record order_shipped "2")]
        /\ returned_messages (Waited w [Deliver (record order_shipped "2")])
           = Some [event_of (record order_created "0") order_created]).
Proof.
  split; [reflexivity|]. split; [reflexivity|].
  destruct (consumeMessages_returns_first_matches connected_helper "order-events"
              (Options.make (Some order_is_X) None None (Some 2%Z)) eq_refl eq_refl)
    as [Hcap Htimer].
  split.
  - destruct (Hcap [Deliver (record order_created "0"); Deliver (record other_order "1")]
                (record order_shipped "2")
                (@event_of sample_builtins (record order_shipped "2") order_shipped)
                [Deliver (record order_created "3")] eq_refl eq_refl eq_refl)
      as (w & Hw & Hr & _).
    exists w. split; [exact Hw | exact Hr].
  - destruct (Htimer [Deliver (record order_created "0"); Deliver (record other_order "1")]
                [Deliver (record order_shipped "2")] eq_refl eq_refl)
      as (w & Hw & Hr).
    exists w. split; [exact Hw | exact Hr].
Defined.

(** C4 fails on the code for a cap of 0: the specification has the call
    return at once with exactly 0 events, the code waits for a record
    and returns it. *)
Lemma consumeMessages_cap_zero_returns_one_event :
  returned_messages
    (await_consumeMessages connected_helper "order-events"
       (Options.make None None None (Some 0%Z))
       [Deliver (record order_created "0"); Deliver (record order_shipped "1"); TimerFires])
  = Some [event_of (record order_created "0") order_created]
  /\ List.length [event_of (record order_created "0") order_created] <> Z.to_nat 0
  /\ firstn (Z.to_nat 0)
       (matches None
          [Deliver (record order_created "0"); Deliver (record order_shipped "1")])
     = [].
Proof. split; [reflexivity|]. split; [discriminate | reflexivity]. Qed.

(** ** C5: no deduplication *)

Lemma NoDup_app_left {A : Type} (l1 l2 : list A) : NoDup (l1 ++ l2) -> NoDup l1.
Proof.
  induction l1 as [|a l1 IH]; simpl; intros H; [constructor|].
  inversion H as [|? ? Hnotin Hnd]; subst. constructor.
  - intros Hin. apply Hnotin. apply in_or_app. left. exact Hin.
  - apply IH. exact Hnd.
Qed.

(** C5, as the code has it. On a connected helper whose [subscribe]
    succeeds, the array returned by [consumeMessages] is an initial
    stretch of the events of the deliveries that pass the filter, in
    arrival order, with one element per delivery and nothing removed;
    so its elements have pairwise distinct partition and offset whenever
    those deliveries have, and not otherwise. *)
Theorem consumeMessages_keeps_every_delivery {js : Builtins} kh topic options schedule returned :
  isConnected kh = true ->
  subscribe_error (cluster kh) topic = None ->
  returned_messages (await_consumeMessages kh topic options schedule) = Some returned ->
  (exists left, matches (Options.filter options) schedule = returned ++ left)
  /\ (NoDup (map position (matches (Options.filter options) schedule)) ->
      NoDup (map position returned)).
Proof.
  intros Hc Hs Hr.
  destruct (consumeMessages_arms kh topic options Hc Hs)
    as (w & Hw & Hp & Ht & Hcons & Hloc & _).
  assert (Hrun : running (consumer (this w)) = true) by (rewrite Hcons; reflexivity).
  pose proof (await_collects options schedule w Hp Hrun) as Hcol. cbv zeta in Hcol.
  destruct Hcol as ((taken & left & Hm & Hl) & _).
  unfold await_consumeMessages, call in Hr. rewrite Hw in Hr.
  destruct (await (consumeMessages_callbacks options) w schedule) as [w' rest].
  cbn [fst] in Hl. rewrite Hloc in Hl. simpl in Hl.
  assert (Hret : returned = taken).
  { unfold returned_messages, completed in Hr.
    destruct (promise w') eqn:Hp'; simpl in Hr; rewrite ?Hp' in Hr; try discriminate.
    destruct a. simpl in Hr. congruence. }
  subst returned. split.
  - exists left. exact Hm.
  - rewrite Hm, map_app. apply NoDup_app_left.
Qed.

Lemma consumeMessages_keeps_every_delivery_witness :
  isConnected connected_helper = true
  /\ subscribe_error (cluster connected_helper) "order-events" = None
  /\ NoDup (map position
       [event_of (record order_created "0") order_created;
        event_of (record order_shipped "2") order_shipped]).
Proof.
  split; [reflexivity|]. split; [reflexivity|].
  apply (consumeMessages_keeps_every_delivery connected_helper "order-events"
           (Options.make (Some order_is_X) None None (Some 2%Z))
           [Deliver (record order_created "0"); Deliver (record other_order "1");
            Deliver (record order_shipped "2"); Deliver (record order_created "3")]
           _ eq_refl eq_refl eq_refl).
  vm_compute.
  repeat (constructor; [simpl; intuition discriminate|]). constructor.
Defined.

(** C5 fails on the code: a record delivered twice is returned twice, and
    the two elements share partition and offset. *)
Lemma consumeMessages_returns_redelivered_record_twice :
  returned_messages
    (await_consumeMessages connected_helper "order-events"
       (Options.make None None None (Some 2%Z))
       [Deliver (record order_created "7"); Deliver (record order_created "7"); TimerFires])
  = Some [event_of (record order_created "7") order_created;
          event_of (record order_created "7") order_created]
  /\ ~ NoDup (map position
         [event_of (record order_created "7") order_created;
          event_of (record order_created "7") order_created]).
Proof.
  split; [reflexivity|].
  intros H. inversion H as [|? ? Hnotin _]; subst. apply Hnotin. left. reflexivity.
Qed.

(** ** C2: the consumer after the call *)

(** The paths on which a record settles the wait stop the consumer before
    the call completes. *)
Lemma consumeMessage_stops_consumer_on_match_and_error {js : Builtins} kh topic options schedule :
  isConnected kh = true ->
  subscribe_error (cluster kh) topic = None ->
  (exists ev, outcome (await_consumeMessage kh topic options schedule) = Returned (Some ev))
  \/ (exists e, outcome (await_consumeMessage kh topic options schedule) = Threw e) ->
  running (consumer (helper_after (await_consumeMessage kh topic options schedule))) = false.
Proof.
  intros Hc Hs Ho.
  destruct (consumeMessage_ends kh topic options schedule Hc Hs) as [Hv Hcons].
  rewrite Hcons. rewrite Hv in Ho.
  destruct Ho as [[ev Ho] | [e Ho]]; rewrite Ho; reflexivity.
Qed.

(** C2 at the timeout path. On a connected helper whose [subscribe]
    succeeds, when the timer fires before any record settled the wait,
    [consumeMessage] returns [null] and [consumeMessages] returns its
    array while the consumer is still running: it has received
    [subscribe] and [run] and no [stop]. *)
Theorem timeout_leaves_consumer_running {js : Builtins} kh topic options pre post :
  isConnected kh = true ->
  subscribe_error (cluster kh) topic = None ->
  let running_consumer :=
    mkConsumer
      (calls (consumer kh)
         ++ [Subscribe topic (default true (Options.fromBeginning options)); Run])
      true in
  (forallb (quiet (Options.filter options)) pre = true ->
   outcome (await_consumeMessage kh topic options (pre ++ TimerFires :: post))
     = Returned None
   /\ consumer (helper_after
        (await_consumeMessage kh topic options (pre ++ TimerFires :: post)))
      = running_consumer)
  /\ (forallb (faultless (Options.filter options)) pre = true ->
      (Z.of_nat (List.length (matches (Options.filter options) pre))
       < Z.max 1 (default 10 (Options.maxMessages options)))%Z ->
      outcome (await_consumeMessages kh topic options (pre ++ TimerFires :: post))
        = Returned messages
      /\ consumer (helper_after
           (await_consumeMessages kh topic options (pre ++ TimerFires :: post)))
         = running_consumer).
Proof.
  intros Hc Hs rc. split.
  - intros Hq.
    destruct (consumeMessage_ends kh topic options (pre ++ TimerFires :: post) Hc Hs)
      as [Hv Hcons].
    assert (Ht : verdict (Options.filter options) (pre ++ TimerFires :: post)
                 = Returned None) by (apply verdict_timed_out; eauto).
    rewrite Ht in *. split; assumption.
  - intros Hf Hlen.
    destruct (consumeMessages_times_out kh topic options pre post Hc Hs Hf Hlen)
      as (w & Hw & Hp & _ & _ & Hcons).
    rewrite Hw. simpl. rewrite Hp. split; [reflexivity | exact Hcons].
Qed.

Lemma timeout_leaves_consumer_running_witness :
  isConnected connected_helper = true
  /\ subscribe_error (cluster connected_helper) "order-events" = None
  /\ outcome
       (await_consumeMessage connected_helper "order-events"
          (Options.make (Some order_is_X) (Some 1000%Z) None None)
          ([Deliver (record other_order "0")] ++ TimerFires :: []))
     = Returned None
  /\ consumer (helper_after
       (await_consumeMessage connected_helper "order-events"
          (Options.make (Some order_is_X) (Some 1000%Z) None None)
          ([Deliver (record other_order "0")] ++ TimerFires :: [])))
     = mkConsumer [Subscribe "order-events" true; Run] true.
Proof.
  split; [reflexivity|]. split; [reflexivity|].
  destruct (timeout_leaves_consumer_running connected_helper "order-events"
              (Options.make (Some order_is_X) (Some 1000%Z) None None)
              [Deliver (record other_order "0")] [] eq_refl eq_refl) as [H _].
  exact (H eq_refl).
Defined.

(** The array that [consumeMessages] returned at the timeout is the one
    the running consumer goes on pushing to. *)
Lemma consumeMessages_array_grows_after_timeout :
  exists (w : WaitMany) rest,
    await_consumeMessages connected_helper "order-events" Options.empty
      [Deliver (record order_created "0"); TimerFires; Deliver (record order_shipped "1")]
    = Waited w rest
    /\ promise w = Resolved messages
    /\ read w messages = [event_of (record order_created "0") order_created]
    /\ read (run (consumeMessages_callbacks Options.empty) w rest) messages
       = [event_of (record order_created "0") order_created;
          event_of (record order_shipped "1") order_shipped].
Proof.
  eexists; eexists. split; [reflexivity|].
  repeat split; reflexivity.
Qed.

(** ** C6: what is tested before [subscribe] *)

(** C6, as the code has it. The connection test is the only one made
    before [subscribe]: on a helper that is not connected both methods
    throw at once and the consumer is not touched; on a connected helper,
    whatever the topic and the timeout, [subscribe] is called with the
    topic as given, and when it succeeds the timer is armed with the
    timeout as given. *)
Theorem only_the_connection_test_precedes_subscribe {js : Builtins} kh topic options :
  (isConnected kh = false ->
   consumeMessage topic options kh = (inl not_connected, kh)
   /\ consumeMessages topic options kh = (inl not_connected, kh))
  /\ (isConnected kh = true ->
      let request := Subscribe topic (default true (Options.fromBeginning options)) in
      In request (calls (consumer (snd (consumeMessage topic options kh))))
      /\ In request (calls (consumer (snd (consumeMessages topic options kh))))
      /\ (subscribe_error (cluster kh) topic = None ->
          (exists w, fst (consumeMessage topic options kh) = inr w
                     /\ timer w = Armed (default 10000%Z (Options.timeout options)))
          /\ (exists w, fst (consumeMessages topic options kh) = inr w
                        /\ timer w = Armed (default 10000%Z (Options.timeout options))))).
Proof.
  split.
  - intros Hc. unfold consumeMessage, consumeMessages. js_unfold. rewrite Hc. auto.
  - intros Hc request. repeat split.
    + unfold consumeMessage. js_unfold. rewrite Hc. simpl.
      destruct (subscribe_error (cluster kh) topic); simpl;
        rewrite !in_app_iff; simpl; auto 6.
    + unfold consumeMessages. js_unfold. rewrite Hc. simpl.
      destruct (subscribe_error (cluster kh) topic); simpl;
        rewrite !in_app_iff; simpl; auto 6.
    + destruct (consumeMessage_arms kh topic options Hc H) as (w & Hw & _ & Ht & _).
      exists w. rewrite Hw. auto.
    + destruct (consumeMessages_arms kh topic options Hc H) as (w & Hw & _ & Ht & _).
      exists w. rewrite Hw. auto.
Qed.

Lemma only_the_connection_test_precedes_subscribe_witness :
  isConnected (constructor local_cluster) = false
  /\ consumeMessage "order-events" Options.empty (constructor local_cluster)
     = (inl not_connected, constructor local_cluster)
  /\ isConnected connected_helper = true
  /\ In (Subscribe EmptyString true)
        (calls (consumer (snd (consumeMessage EmptyString
                                 (Options.make None (Some 0%Z) None None)
                                 connected_helper)))).
Proof.
  split; [reflexivity|].
  destruct (only_the_connection_test_precedes_subscribe (constructor local_cluster)
              "order-events" Options.empty) as [Hoff _].
  split; [exact (proj1 (Hoff eq_refl))|].
  split; [reflexivity|].
  destruct (only_the_connection_test_precedes_subscribe connected_helper
              EmptyString (Options.make None (Some 0%Z) None None)) as [_ Hon].
  exact (proj1 (Hon eq_refl)).
Defined.

(** C6 fails on the code: with a timeout of 0, with a negative timeout
    and with an empty topic the call does not throw before [subscribe];
    it subscribes, arms the timer and starts the consumer. Where the
    client library turns the empty topic down, the error comes from the
    [subscribe] that was called. *)
Lemma nonpositive_timeout_and_empty_topic_are_subscribed :
  (exists w : WaitOne,
     fst (consumeMessage "order-events" (Options.make None (Some 0%Z) None None)
            connected_helper) = inr w
     /\ timer w = Armed 0
     /\ consumer (this w) = mkConsumer [Subscribe "order-events" true; Run] true)
  /\ (exists w : WaitMany,
        fst (consumeMessages "order-events" (Options.make None (Some (-5)%Z) None None)
               connected_helper) = inr w
        /\ timer w = Armed (-5)
        /\ consumer (this w) = mkConsumer [Subscribe "order-events" true; Run] true)
  /\ (exists w : WaitOne,
        fst (consumeMessage EmptyString Options.empty connected_helper) = inr w
        /\ consumer (this w) = mkConsumer [Subscribe EmptyString true; Run] true)
  /\ (fst (consumeMessage EmptyString Options.empty (helper_on strict_cluster))
      = inl (KafkaJSError "Missing required argument topics")
      /\ calls (consumer (snd (consumeMessage EmptyString Options.empty
                                 (helper_on strict_cluster))))
         = [Subscribe EmptyString true]).
Proof.
  split; [|split; [|split]].
  - eexists; split; [reflexivity|]. split; reflexivity.
  - eexists; split; [reflexivity|]. split; reflexivity.
  - eexists; split; [reflexivity|]. reflexivity.
  - split; reflexivity.
Qed.

(** ** C7: a failure of the transport during the wait *)

(** A report runs the handler attached for it, and nothing where none is
    attached. *)
Lemma dispatch_report {A L : Type} (cb : Callbacks A L) (w : Wait A L) o :
  onDisconnect cb = None ->
  onCrash cb = None ->
  report o = true ->
  dispatch cb w o = w.
Proof.
  intros Hd Hc Ho. destruct o as [p| | |crash]; try discriminate Ho; simpl.
  - rewrite Hd. reflexivity.
  - rewrite Hc. reflexivity.
Qed.

Lemma await_ignores_report {A L : Type} (cb : Callbacks A L) o s1 :
  onDisconnect cb = None ->
  onCrash cb = None ->
  report o = true ->
  forall w s2, fst (await cb w (s1 ++ o :: s2)) = fst (await cb w (s1 ++ s2)).
Proof.
  intros Hd Hc Ho. induction s1 as [|o1 s1 IH]; intros w s2.
  - rewrite !List.app_nil_l. destruct (promise w) eqn:Hp.
    + rewrite await_pending_cons by assumption.
      rewrite dispatch_report by assumption. reflexivity.
    + rewrite !await_settled by (rewrite Hp; discriminate). reflexivity.
    + rewrite !await_settled by (rewrite Hp; discriminate). reflexivity.
  - rewrite <- !app_comm_cons. destruct (promise w) eqn:Hp.
    + rewrite !await_pending_cons by assumption. apply IH.
    + rewrite !await_settled by (rewrite Hp; discriminate). reflexivity.
    + rewrite !await_settled by (rewrite Hp; discriminate). reflexivity.
Qed.

Lemma call_ignores_report {A L : Type} start (cb : Callbacks A L) failure kh o s1 s2 :
  onDisconnect cb = None ->
  onCrash cb = None ->
  report o = true ->
  outcome (call start cb failure kh (s1 ++ o :: s2))
  = outcome (call start cb failure kh (s1 ++ s2))
  /\ helper_after (call start cb failure kh (s1 ++ o :: s2))
     = helper_after (call start cb failure kh (s1 ++ s2)).
Proof.
  intros Hd Hc Ho. unfold call. destruct (start kh) as [[e|w] kh']; [auto|].
  pose proof (await_ignores_report cb o s1 Hd Hc Ho w s2) as H.
  destruct (await cb w (s1 ++ o :: s2)) as [w1 r1].
  destruct (await cb w (s1 ++ s2)) as [w2 r2].
  simpl in H. subst w2. auto.
Qed.

(** The loop does run a handler where one is attached: a call that had
    attached [reject] to the crash of the consumer would throw the error
    of the crash. *)
Lemma attached_crash_handler_is_run {A L : Type} (cb : Callbacks A L) (w : Wait A L)
  handler e :
  onCrash cb = Some handler ->
  dispatch cb w (Crashed e) = snd (handler e w).
Proof. intros H. simpl. rewrite H. reflexivity. Qed.

Lemma consumeMessages_consumer_after {js : Builtins} kh topic options schedule :
  isConnected kh = true ->
  subscribe_error (cluster kh) topic = None ->
  let c := consumer (helper_after (await_consumeMessages kh topic options schedule)) in
  c = armed_consumer kh topic options \/ c = stopped (armed_consumer kh topic options).
Proof.
  intros Hc Hs.
  destruct (consumeMessages_arms kh topic options Hc Hs)
    as (w & Hw & Hp & Ht & Hcons & Hloc & _).
  assert (Hrun : running (consumer (this w)) = true) by (rewrite Hcons; reflexivity).
  pose proof (await_collects options schedule w Hp Hrun) as Hcol. cbv zeta in Hcol.
  destruct Hcol as (_ & Hcol).
  unfold await_consumeMessages, call. rewrite Hw.
  destruct (await (consumeMessages_callbacks options) w schedule) as [w' rest].
  cbn [fst] in Hcol. cbn [helper_after].
  destruct (completed_undisturbed ("Failed to consume messages from topic: " ++ topic)%string w')
    as (U1 & _).
  cbv zeta. rewrite U1, <- Hcons. exact Hcol.
Qed.

(** C7, as the code has it. The helper attaches no handler for a
    disconnect or a crash of the consumer, and has no retry: a report of
    the client library during the wait, also the one that it has given
    up, changes neither the completion of [consumeMessage] or
    [consumeMessages] nor the state of the helper, which are those of the
    same schedule without the report; and over the whole call the
    consumer receives one [subscribe], one [run] and at most one
    [stop]. *)
Theorem disconnect_is_not_observed {js : Builtins} kh topic options s1 o s2 :
  report o = true ->
  (outcome (await_consumeMessage kh topic options (s1 ++ o :: s2))
   = outcome (await_consumeMessage kh topic options (s1 ++ s2))
   /\ helper_after (await_consumeMessage kh topic options (s1 ++ o :: s2))
      = helper_after (await_consumeMessage kh topic options (s1 ++ s2)))
  /\ (outcome (await_consumeMessages kh topic options (s1 ++ o :: s2))
      = outcome (await_consumeMessages kh topic options (s1 ++ s2))
      /\ helper_after (await_consumeMessages kh topic options (s1 ++ o :: s2))
         = helper_after (await_consumeMessages kh topic options (s1 ++ s2)))
  /\ (isConnected kh = true ->
      subscribe_error (cluster kh) topic = None ->
      let request := Subscribe topic (default true (Options.fromBeginning options)) in
      let one := calls (consumer (helper_after
                   (await_consumeMessage kh topic options (s1 ++ o :: s2)))) in
      let many := calls (consumer (helper_after
                    (await_consumeMessages kh topic options (s1 ++ o :: s2)))) in
      (one = calls (consumer kh) ++ [request; Run]
       \/ one = calls (consumer kh) ++ [request; Run; Stop])
      /\ (many = calls (consumer kh) ++ [request; Run]
          \/ many = calls (consumer kh) ++ [request; Run; Stop])).
Proof.
  intros Ho.
  split; [apply call_ignores_report; auto|]. split; [apply call_ignores_report; auto|].
  intros Hc Hs request one many. split.
  - destruct (consumeMessage_ends kh topic options (s1 ++ o :: s2) Hc Hs)
      as [_ Hcons].
    subst one. rewrite Hcons. unfold stopped, armed_consumer.
    destruct (verdict _ _) as [[ev|]|e|]; simpl; rewrite <- ?List.app_assoc; auto.
  - subst many.
    destruct (consumeMessages_consumer_after kh topic options (s1 ++ o :: s2) Hc Hs)
      as [-> | ->]; unfold stopped, armed_consumer; simpl; rewrite <- ?List.app_assoc; auto.
Qed.

Lemma disconnect_is_not_observed_witness :
  isConnected connected_helper = true
  /\ subscribe_error (cluster connected_helper) "order-events" = None
  /\ outcome
       (await_consumeMessage connected_helper "order-events" (with_filter order_is_X)
          ([Deliver (record other_order "0")] ++ Disconnected :: [TimerFires]))
     = Returned None
  /\ (calls (consumer (helper_after
        (await_consumeMessage connected_helper "order-events" (with_filter order_is_X)
           ([Deliver (record other_order "0")] ++ Disconnected :: [TimerFires]))))
      = calls (consumer connected_helper) ++ [Subscribe "order-events" true; Run]
      \/ calls (consumer (helper_after
           (await_consumeMessage connected_helper "order-events" (with_filter order_is_X)
              ([Deliver (record other_order "0")] ++ Disconnected :: [TimerFires]))))
         = calls (consumer connected_helper) ++ [Subscribe "order-events" true; Run; Stop]).
Proof.
  split; [reflexivity|]. split; [reflexivity|].
  destruct (disconnect_is_not_observed connected_helper "order-events"
              (with_filter order_is_X) [Deliver (record other_order "0")] Disconnected
              [TimerFires] eq_refl)
    as ((Hout & _) & _ & Hcalls).
  split.
  - rewrite Hout. reflexivity.
  - exact (proj1 (Hcalls eq_refl eq_refl)).
Defined.

(** C7 fails on the code. The connection drops and the client library
    then gives up on the consumer, its attempts exhausted: the helper
    asks nothing more of the consumer (no retry of its own) and surfaces
    no error; the call stays pending, and when the timer fires it
    returns the timeout result, [null] (the empty array for
    [consumeMessages]), as a call does during which nothing failed. *)
Lemma exhausted_client_surfaces_no_error :
  outcome
    (await_consumeMessage connected_helper "order-events" (with_filter order_is_X)
       [Disconnected; Crashed (KafkaJSError "Connection timeout")])
  = Suspended
  /\ calls (consumer (helper_after
       (await_consumeMessage connected_helper "order-events" (with_filter order_is_X)
          [Disconnected; Crashed (KafkaJSError "Connection timeout")])))
     = [Subscribe "order-events" true; Run]
  /\ outcome
       (await_consumeMessage connected_helper "order-events" (with_filter order_is_X)
          [Disconnected; Crashed (KafkaJSError "Connection timeout"); TimerFires])
     = Returned None
  /\ outcome
       (await_consumeMessage connected_helper "order-events" (with_filter order_is_X)
          [Disconnected; Crashed (KafkaJSError "Connection timeout"); TimerFires])
     <> Threw (KafkaJSError "Connection timeout")
  /\ returned_messages
       (await_consumeMessages connected_helper "order-events" (with_filter order_is_X)
          [Disconnected; Crashed (KafkaJSError "Connection timeout"); TimerFires])
     = Some [].
Proof.
  assert (E : outcome
               (await_consumeMessage connected_helper "order-events"
                  (with_filter order_is_X)
                  [Disconnected; Crashed (KafkaJSError "Connection timeout"); TimerFires])
             = Returned None) by reflexivity.
  split; [reflexivity|]. split; [reflexivity|]. split; [exact E|].
  split; [rewrite E; discriminate | reflexivity].
Qed.

(** ** What [consumeMessages] returns at the timer *)



Lemma quiet_is_faultless {js : Builtins} filter pre :
  forallb (quiet filter) pre = true ->
  forallb (faultless filter) pre = true /\ matches filter pre = [].
Proof.
  induction pre as [|o rest IH]; intros Hq; [split; reflexivity|].
  cbn [forallb] in Hq. apply andb_prop in Hq. destruct Hq as [Ho Hrest].
  destruct (IH Hrest) as [Hf Hm].
  destruct o as [p| | |crash]; cbn [forallb faultless matches quiet] in *;
    try discriminate Ho; [|split; assumption ..].
  destruct (screen filter p) as [e|[ev|]]; try discriminate Ho. split; assumption.
Qed.

(** ** C9: the origin of the subscription *)



(** ** [Sample.parse] after [Sample.stringify] *)

Lemma append_assoc (a b c : string) : ((a ++ b) ++ c = a ++ (b ++ c))%string.
Proof. induction a as [|x a IH]; simpl; [reflexivity | rewrite IH; reflexivity]. Qed.

Lemma append_nil_r (a : string) : (a ++ EmptyString)%string = a.
Proof. induction a as [|x a IH]; simpl; [reflexivity | rewrite IH; reflexivity]. Qed.

Lemma length_append (a b : string) :
  String.length (a ++ b)%string = String.length a + String.length b.
Proof. induction a as [|x a IH]; simpl; [reflexivity | rewrite IH; reflexivity]. Qed.

Lemma parse_chars_step c tail :
  Sample.parse_chars (Sample.quote_char c ++ tail)%string
  = match Sample.parse_chars tail with
    | Some (str, rest) => Some (String c str, rest)
    | None => None
    end.
Proof. destruct c as [[] [] [] [] [] [] [] []]; reflexivity. Qed.

Lemma parse_chars_quote s : forall rest,
  Sample.parse_chars (Sample.quote_chars s ++ String dquote rest)%string = Some (s, rest).
Proof.
  induction s as [|c s IH]; intros rest.
  - reflexivity.
  - cbn [Sample.quote_chars]. rewrite append_assoc, parse_chars_step, IH. reflexivity.
Qed.

Lemma to_uint_head_nonzero p d : Pos.to_uint p <> D0 d.
Proof.
  intros H.
  assert (Hn : Decimal.unorm (Pos.to_uint p) = Pos.to_uint p).
  { rewrite <- (DecimalPos.Unsigned.to_of (Pos.to_uint p)).
    rewrite DecimalPos.Unsigned.of_to. reflexivity. }
  rewrite H, DecimalFacts.unorm_D0 in Hn.
  destruct (uint_eq_dec d Nil) as [->|Hd].
  - apply (DecimalPos.Unsigned.to_uint_nonzero p). exact H.
  - pose proof (DecimalFacts.nb_digits_unorm d Hd) as Hle.
    rewrite Hn in Hle. simpl in Hle. lia.
Qed.

Lemma closes_ends_number rest : closes rest = true -> ends_number rest = true.
Proof.
  destruct rest as [|c r]; [reflexivity|]. simpl.
  intros H. apply orb_true_iff in H as [H|H]; [apply orb_true_iff in H as [H|H]|];
    apply Ascii.eqb_eq in H; subst c; reflexivity.
Qed.

Lemma span_digits_uint d rest :
  ends_number rest = true ->
  Sample.span_digits (NilEmpty.string_of_uint d ++ rest)%string
  = (NilEmpty.string_of_uint d, rest).
Proof.
  intros Hr.
  induction d; cbn [NilEmpty.string_of_uint append];
    try (change (Sample.span_digits (String ?c ?s))
           with (let (ds, r) := Sample.span_digits s in (String c ds, r));
         rewrite IHd; reflexivity).
  destruct rest as [|c r]; [reflexivity|].
  simpl in Hr. apply andb_true_iff in Hr as [Hd _]. apply negb_true_iff in Hd.
  cbn [Sample.span_digits]. rewrite Hd. reflexivity.
Qed.

Lemma parse_digits d rest :
  d <> Nil -> (forall d', d <> D0 d') ->
  ends_number rest = true ->
  Sample.parse_number (NilEmpty.string_of_uint d ++ rest)%string = Some (Z.of_uint d, rest)
  /\ Sample.parse_number (String "-" (NilEmpty.string_of_uint d ++ rest))%string
     = Some (Z.opp (Z.of_uint d), rest).
Proof.
  intros Hnil Hzero Hr.
  assert (Hs : Sample.starts_fraction rest = false).
  { destruct rest as [|c r]; [reflexivity|]. simpl in Hr.
    apply andb_true_iff in Hr as [_ Hf]. apply negb_true_iff in Hf. exact Hf. }
  pose proof (NilZero.usu d Hnil) as Hu.
  assert (He : NilZero.string_of_uint d = NilEmpty.string_of_uint d)
    by (destruct d; try reflexivity; congruence).
  rewrite He in Hu.
  pose proof (span_digits_uint d rest Hr) as Hsp.
  destruct d as [|d|d|d|d|d|d|d|d|d|d]; try congruence;
    try (exfalso; eapply Hzero; reflexivity);
    cbn [NilEmpty.string_of_uint append] in *;
    unfold Sample.parse_number;
    (split;
     [ change (Ascii.eqb ?c "-") with false; cbv iota; rewrite Hsp
     | change (Ascii.eqb "-" "-") with true; cbv iota; rewrite Hsp ];
     change (Ascii.eqb ?c "0" && negb (String.eqb ?m EmptyString)) with false;
     cbv iota; rewrite Hs, Hu; reflexivity).
Qed.

Lemma digits_zero : JSON.digits 0 = "0"%string.
Proof. reflexivity. Qed.

Lemma parse_number_digits n rest :
  closes rest = true ->
  Sample.parse_number (JSON.digits n ++ rest)%string = Some (n, rest).
Proof.
  intros Hc. pose proof (closes_ends_number rest Hc) as Hr.
  destruct n as [|p|p].
  - assert (Hs : Sample.starts_fraction rest = false).
    { destruct rest as [|c r]; [reflexivity|]. simpl in Hr.
      apply andb_true_iff in Hr as [_ Hf]. apply negb_true_iff in Hf. exact Hf. }
    pose proof (span_digits_uint (D0 Nil) rest Hr) as Hsp.
    cbn [NilEmpty.string_of_uint append] in Hsp.
    rewrite digits_zero. cbn [append]. unfold Sample.parse_number.
    change (Ascii.eqb "0" "-") with false. cbv iota. rewrite Hsp.
    change (Ascii.eqb "0" "0" && negb (String.eqb EmptyString EmptyString)) with false.
    cbv iota. rewrite Hs. reflexivity.
  - destruct (parse_digits (Pos.to_uint p) rest) as [H _]; auto.
    + apply DecimalPos.Unsigned.to_uint_nonnil.
    + intros d'. apply to_uint_head_nonzero.
    + unfold JSON.digits. cbn [Z.to_int NilZero.string_of_int].
      replace (NilZero.string_of_uint (Pos.to_uint p))
        with (NilEmpty.string_of_uint (Pos.to_uint p)).
      * rewrite H. unfold Z.of_uint. rewrite DecimalPos.Unsigned.of_to. reflexivity.
      * pose proof (DecimalPos.Unsigned.to_uint_nonnil p).
        destruct (Pos.to_uint p); try reflexivity; congruence.
  - destruct (parse_digits (Pos.to_uint p) rest) as [_ H]; auto.
    + apply DecimalPos.Unsigned.to_uint_nonnil.
    + intros d'. apply to_uint_head_nonzero.
    + unfold JSON.digits. cbn [Z.to_int NilZero.string_of_int append].
      replace (NilZero.string_of_uint (Pos.to_uint p))
        with (NilEmpty.string_of_uint (Pos.to_uint p)).
      * rewrite H. unfold Z.of_uint. rewrite DecimalPos.Unsigned.of_to. reflexivity.
      * pose proof (DecimalPos.Unsigned.to_uint_nonnil p).
        destruct (Pos.to_uint p); try reflexivity; congruence.
Qed.

Lemma digits_start n :
  exists c r, JSON.digits n = String c r /\ number_start c = true.
Proof.
  destruct n as [|p|p].
  - exists "0"%char, EmptyString. split; reflexivity.
  - unfold JSON.digits. cbn [Z.to_int NilZero.string_of_int].
    pose proof (DecimalPos.Unsigned.to_uint_nonnil p).
    destruct (Pos.to_uint p); try congruence;
      cbn [NilZero.string_of_uint NilEmpty.string_of_uint];
      eexists; eexists; split; reflexivity.
  - unfold JSON.digits. cbn [Z.to_int NilZero.string_of_int].
    eexists; eexists; split; reflexivity.
Qed.

Lemma stringify_start v :
  exists c r, Sample.stringify v = String c r /\ value_start c = true.
Proof.
  destruct v as [|[|]|n|s|items|members];
    try (eexists; eexists; split; reflexivity).
  destruct (digits_start n) as (c & r & H & Hc).
  exists c, r. split; [exact H|].
  unfold value_start. unfold number_start in Hc.
  apply orb_true_iff in Hc as [Hc|Hc]; rewrite Hc; rewrite ?orb_true_r; reflexivity.
Qed.

Lemma value_start_not_closing c :
  value_start c = true ->
  is_ws c = false /\ Ascii.eqb c "]" = false /\ Ascii.eqb c "}" = false.
Proof.
  destruct c as [[] [] [] [] [] [] [] []]; intros H;
    try (vm_compute in H; discriminate H); repeat split; reflexivity.
Qed.

(** One step of the parser on a text whose first character is known. *)
Lemma parse_value_number f c s :
  number_start c = true ->
  Sample.parse_value (S f) (String c s)
  = match Sample.parse_number (String c s) with
    | Some (n, rest) => Some (JSON.Number n, rest)
    | None => None
    end.
Proof.
  destruct c as [[] [] [] [] [] [] [] []]; intros H;
    try (vm_compute in H; discriminate H); reflexivity.
Qed.

Lemma parse_value_quote f tail :
  Sample.parse_value (S f) (String dquote tail)
  = match Sample.parse_chars tail with
    | Some (str, rest) => Some (JSON.Str str, rest)
    | None => None
    end.
Proof. reflexivity. Qed.

Lemma parse_value_bracket f tail :
  Sample.parse_value (S f) (String "[" tail)
  = match Sample.skip_ws tail with
    | EmptyString => None
    | String c2 r2 =>
        if Ascii.eqb c2 "]" then Some (JSON.Array [], r2)
        else
          match Sample.parse_items f tail with
          | Some (vs, rest) => Some (JSON.Array vs, rest)
          | None => None
          end
    end.
Proof. reflexivity. Qed.

Lemma parse_value_brace f tail :
  Sample.parse_value (S f) (String "{" tail)
  = match Sample.skip_ws tail with
    | EmptyString => None
    | String c2 r2 =>
        if Ascii.eqb c2 "}" then Some (JSON.Object [], r2)
        else
          match Sample.parse_members f tail with
          | Some (ms, rest) => Some (JSON.Object ms, rest)
          | None => None
          end
    end.
Proof. reflexivity. Qed.

Lemma value_induction (P : JSON.value -> Prop) :
  P JSON.Null ->
  (forall b, P (JSON.Bool b)) ->
  (forall n, P (JSON.Number n)) ->
  (forall s, P (JSON.Str s)) ->
  (forall items, Forall P items -> P (JSON.Array items)) ->
  (forall members, Forall (fun m => P (snd m)) members -> P (JSON.Object members)) ->
  forall v, P v.
Proof.
  intros HN HB HNum HS HA HO. fix IH 1. intros [|b|n|s|items|members].
  - exact HN.
  - apply HB.
  - apply HNum.
  - apply HS.
  - apply HA. induction items as [|x xs IHxs]; constructor; [apply IH | exact IHxs].
  - apply HO. induction members as [|[k x] ms IHms]; constructor; [apply IH | exact IHms].
Qed.

Lemma parse_items_unfold f s :
  Sample.parse_items (S f) s
  = match Sample.parse_value f s with
    | None => None
    | Some (v, r) =>
        match Sample.skip_ws r with
        | EmptyString => None
        | String c r1 =>
            if Ascii.eqb c ","
            then match Sample.parse_items f r1 with
                 | Some (vs, rest) => Some (v :: vs, rest)
                 | None => None
                 end
            else if Ascii.eqb c "]" then Some ([v], r1) else None
        end
    end.
Proof. reflexivity. Qed.

Lemma parse_items_stringify items :
  Forall reads items ->
  items <> [] ->
  forall fuel rest,
    list_sum (map (fun x => S (size x)) items) <= fuel ->
    Sample.parse_items fuel
      (String.concat "," (map Sample.stringify items) ++ String "]" rest)%string
    = Some (items, rest).
Proof.
  induction 1 as [|x xs Hx Hxs IH]; intros Hne fuel rest Hfuel; [congruence|].
  cbn [map list_sum] in Hfuel.
  destruct fuel as [|f]; [simpl in Hfuel; lia|].
  rewrite parse_items_unfold.
  destruct xs as [|y ys].
  - cbn [map String.concat].
    rewrite (Hx f (String "]" rest)) by (simpl in *; try lia; reflexivity).
    reflexivity.
  - change (String.concat "," (map Sample.stringify (x :: y :: ys)))
      with (Sample.stringify x ++ "," ++ String.concat "," (map Sample.stringify (y :: ys)))%string.
    rewrite append_assoc. cbn [append].
    rewrite (Hx f) by (simpl in *; try lia; reflexivity).
    cbn [Sample.skip_ws]. change (is_ws ",") with false. cbv iota.
    change (Ascii.eqb "," ",") with true. cbv iota.
    rewrite IH by (try discriminate; simpl in *; lia).
    reflexivity.
Qed.

Lemma parse_members_unfold f s :
  Sample.parse_members (S f) s
  = match Sample.skip_ws s with
    | EmptyString => None
    | String q r =>
        if Ascii.eqb q dquote then
          match Sample.parse_chars r with
          | None => None
          | Some (k, r1) =>
              match Sample.skip_ws r1 with
              | EmptyString => None
              | String colon r2 =>
                  if Ascii.eqb colon ":" then
                    match Sample.parse_value f r2 with
                    | None => None
                    | Some (v, r3) =>
                        match Sample.skip_ws r3 with
                        | EmptyString => None
                        | String c r4 =>
                            if Ascii.eqb c ","
                            then match Sample.parse_members f r4 with
                                 | Some (ms, rest) => Some ((k, v) :: ms, rest)
                                 | None => None
                                 end
                            else if Ascii.eqb c "}" then Some ([(k, v)], r4) else None
                        end
                    end
                  else None
              end
          end
        else None
    end.
Proof. reflexivity. Qed.

Lemma member_text_eq k x tail :
  (member_text (k, x) ++ tail)%string
  = String dquote (Sample.quote_chars k ++ String dquote (String ":" (Sample.stringify x ++ tail)))%string.
Proof.
  unfold member_text, Sample.quote. cbn [append].
  rewrite !append_assoc. cbn [append]. reflexivity.
Qed.

Lemma parse_members_stringify members :
  Forall (fun m => reads (snd m)) members ->
  members <> [] ->
  forall fuel rest,
    list_sum (map (fun m : string * JSON.value => S (size (snd m))) members) <= fuel ->
    Sample.parse_members fuel
      (String.concat "," (map member_text members) ++ String "}" rest)%string
    = Some (members, rest).
Proof.
  induction 1 as [|[k x] ms Hx Hms IH]; intros Hne fuel rest Hfuel; [congruence|].
  cbn [map list_sum snd] in Hfuel. cbn [snd] in Hx.
  destruct fuel as [|f]; [simpl in Hfuel; lia|].
  rewrite parse_members_unfold.
  destruct ms as [|m' ms'].
  - cbn [map String.concat]. rewrite member_text_eq.
    cbn [Sample.skip_ws]. change (is_ws dquote) with false. cbv iota.
    change (Ascii.eqb dquote dquote) with true. cbv iota.
    rewrite parse_chars_quote.
    cbn [Sample.skip_ws]. change (is_ws ":") with false. cbv iota.
    change (Ascii.eqb ":" ":") with true. cbv iota.
    rewrite (Hx f (String "}" rest)) by (simpl in *; try lia; reflexivity).
    reflexivity.
  - change (String.concat "," (map member_text ((k, x) :: m' :: ms')))
      with (member_text (k, x) ++ "," ++ String.concat "," (map member_text (m' :: ms')))%string.
    rewrite append_assoc, member_text_eq. cbn [append].
    cbn [Sample.skip_ws]. change (is_ws dquote) with false. cbv iota.
    change (Ascii.eqb dquote dquote) with true. cbv iota.
    rewrite parse_chars_quote.
    cbn [Sample.skip_ws]. change (is_ws ":") with false. cbv iota.
    change (Ascii.eqb ":" ":") with true. cbv iota.
    rewrite (Hx f) by (simpl in *; try lia; reflexivity).
    cbn [Sample.skip_ws]. change (is_ws ",") with false. cbv iota.
    change (Ascii.eqb "," ",") with true. cbv iota.
    rewrite IH by (try discriminate; simpl in *; lia).
    reflexivity.
Qed.

Lemma skip_ws_value_start c s :
  value_start c = true -> Sample.skip_ws (String c s) = String c s.
Proof.
  intros H. apply value_start_not_closing in H as (Hw & _).
  cbn [Sample.skip_ws]. rewrite Hw. reflexivity.
Qed.

Lemma stringify_object members :
  Sample.stringify (JSON.Object members)
  = ("{" ++ String.concat "," (map member_text members) ++ "}")%string.
Proof. reflexivity. Qed.

Theorem parse_value_stringify v : reads v.
Proof.
  induction v using value_induction; intros fuel rest Hfuel Hrest;
    (destruct fuel as [|f]; [simpl in Hfuel; lia|]).
  - reflexivity.
  - destruct b; reflexivity.
  - destruct (digits_start n) as (c & r & Hn & Hc).
    cbn [Sample.stringify].
    pose proof (parse_number_digits n rest Hrest) as Hp.
    rewrite Hn in *. cbn [append] in *.
    rewrite parse_value_number by exact Hc. rewrite Hp. reflexivity.
  - cbn [Sample.stringify]. unfold Sample.quote. cbn [append].
    rewrite append_assoc. cbn [append].
    rewrite parse_value_quote, parse_chars_quote. reflexivity.
  - cbn [Sample.stringify]. cbn [append]. rewrite append_assoc. cbn [append].
    rewrite parse_value_bracket.
    destruct items as [|x xs].
    + reflexivity.
    + destruct (stringify_start x) as (c & r & Hx & Hc).
      pose proof (value_start_not_closing c Hc) as (Hw & Hb & _).
      assert (Hhead : exists tail,
                 (String.concat "," (map Sample.stringify (x :: xs)) ++ String "]" rest)%string
                 = String c tail).
      { cbn [map]. destruct xs; cbn [String.concat map]; rewrite Hx;
          cbn [append]; eexists; reflexivity. }
      destruct Hhead as (tail & Htail).
      rewrite parse_items_stringify by (auto; try discriminate; simpl in *; lia).
      rewrite Htail. cbn [Sample.skip_ws]. rewrite Hw, Hb. reflexivity.
  - rewrite stringify_object. cbn [append]. rewrite append_assoc. cbn [append].
    rewrite parse_value_brace.
    destruct members as [|[k x] ms].
    + reflexivity.
    + assert (Hhead : exists tail,
                 (String.concat "," (map member_text ((k, x) :: ms)) ++ String "}" rest)%string
                 = String dquote tail).
      { cbn [map]. destruct ms; cbn [String.concat map]; unfold member_text, Sample.quote;
          cbn [append]; eexists; reflexivity. }
      destruct Hhead as (tail & Htail).
      rewrite parse_members_stringify by (auto; try discriminate; simpl in *; lia).
      rewrite Htail. reflexivity.
Qed.

Lemma concat_fuel {A : Type} (weight : A -> nat) (text : A -> string) (l : list A) :
  Forall (fun a => weight a <= 2 * String.length (text a)) l ->
  list_sum (map (fun a => S (weight a)) l)
  <= 2 * String.length (String.concat "," (map text l)) + 2.
Proof.
  induction 1 as [|a l Ha Hl IH]; [simpl; lia|].
  destruct l as [|b l'].
  - simpl in *. lia.
  - change (String.concat "," (map text (a :: b :: l')))
      with (text a ++ "," ++ String.concat "," (map text (b :: l')))%string.
    rewrite !length_append. unfold list_sum in *. cbn [map fold_right] in *.
    change (String.length ",") with 1. lia.
Qed.

Lemma size_le_text v : size v <= 2 * String.length (Sample.stringify v).
Proof.
  induction v using value_induction.
  - simpl; lia.
  - destruct b; simpl; lia.
  - destruct (digits_start n) as (c & r & Hn & _).
    cbn [Sample.stringify size]. rewrite Hn. simpl. lia.
  - simpl. lia.
  - cbn [Sample.stringify size]. rewrite !length_append.
    pose proof (concat_fuel size Sample.stringify items H) as Hc.
    change (String.length "[") with 1. change (String.length "]") with 1. lia.
  - rewrite stringify_object. cbn [size]. rewrite !length_append.
    assert (Hm : Forall (fun m : string * JSON.value =>
                           size (snd m) <= 2 * String.length (member_text m)) members).
    { eapply Forall_impl; [|exact H]. intros [k x] Hx. cbn [snd] in *.
      unfold member_text. rewrite !length_append. lia. }
    pose proof (concat_fuel (fun m => size (snd m)) member_text members Hm) as Hc.
    change (String.length "{") with 1. change (String.length "}") with 1. lia.
Qed.

(** [Sample.parse] reads every value back from its [Sample.stringify] text. *)
Theorem parse_stringify v : Sample.parse (Sample.stringify v) = Some v.
Proof.
  unfold Sample.parse.
  pose proof (parse_value_stringify v (2 * String.length (Sample.stringify v) + 2)
                EmptyString) as H.
  rewrite append_nil_r in H. rewrite H; [reflexivity| |reflexivity].
  pose proof (size_le_text v). lia.
Qed.

(** The built-ins of the examples read every message back: the round
    trip that C10 asks of [JSON.parse] and [JSON.stringify] holds on
    them for every document. *)
Lemma sample_builtins_read_back (v : JSON.value) :
  @JSON_parse sample_builtins (@JSON_stringify sample_builtins v) = inr v.
Proof. cbn [JSON_parse JSON_stringify sample_builtins]. rewrite parse_stringify. reflexivity. Qed.

(** ** C10: produce, then consume *)

Lemma produceMessage_sends {js : Builtins} kh topic message key :
  isConnected kh = true ->
  send_error (cluster kh) topic = None ->
  exists kh1,
    produceMessage topic message key kh = (inr tt, kh1)
    /\ isConnected kh1 = true
    /\ consumer kh1 = consumer kh
    /\ subscribe_error (cluster kh1) = subscribe_error (cluster kh)
    /\ sent (cluster kh1)
       = sent (cluster kh)
           ++ [Sent.make topic (if truthy key then Some (to_String key) else None)
                 (JSON_stringify message)].
Proof.
  intros Hc Hs. unfold produceMessage. js_unfold. rewrite Hc. simpl. rewrite Hs. simpl.
  eexists. split; [reflexivity|]. simpl. repeat split; auto.
  destruct key; reflexivity.
Qed.

(** C10, as the code has it. On a connected helper:
    [produceMessage(topic, message, key)] hands the producer one request,
    for that topic, and a [consumeMessage] that is handed a record
    carrying the request, its filter having turned down what came
    before, returns an event whose value is what [JSON.parse] reads from
    the text that [JSON.stringify] wrote for the message (the message
    itself, whenever [JSON.parse] reads it back), if the filter accepts
    that value. The key of the request and of the event is [String(key)]
    only for a truthy key: it is [null] when no key was given, and also
    when the key given is falsy, as [0] and the empty string are. *)
Theorem produced_message_round_trips {js : Builtins}
  kh topic message key options pre p post read_back :
  isConnected kh = true ->
  send_error (cluster kh) topic = None ->
  subscribe_error (cluster kh) topic = None ->
  JSON_parse (JSON_stringify message) = inr read_back ->
  accepts (Options.filter options) read_back = inr true ->
  forallb (quiet (Options.filter options)) pre = true ->
  let kh' := snd (produceMessage topic message key kh) in
  fst (produceMessage topic message key kh) = inr tt
  /\ exists request,
       sent (cluster kh') = sent (cluster kh) ++ [request]
       /\ Sent.topic request = topic
       /\ Sent.key request = (if truthy key then Some (to_String key) else None)
       /\ (carries p request ->
           outcome (await_consumeMessage kh' topic options (pre ++ Deliver p :: post))
           = Returned
               (Some (Event.make topic (Payload.partition p)
                        (Message.offset (Payload.message p))
                        (if truthy key then Some (to_String key) else None)
                        read_back
                        (Message.timestamp (Payload.message p))))).
Proof.
  intros Hc Hsend Hsub Hround Hacc Hq kh'.
  destruct (produceMessage_sends kh topic message key Hc Hsend)
    as (kh1 & Hp & Hc1 & _ & Hsub1 & Hsent).
  subst kh'. rewrite Hp. cbn [fst snd]. split; [reflexivity|].
  eexists. split; [exact Hsent|]. cbn [Sent.topic Sent.key Sent.value].
  split; [reflexivity|]. split; [reflexivity|].
  intros (Htopic & Hkey & Hvalue). cbn [Sent.topic Sent.key Sent.value] in *.
  assert (Hsub' : subscribe_error (cluster kh1) topic = None) by (rewrite Hsub1; exact Hsub).
  destruct (consumeMessage_ends kh1 topic options (pre ++ Deliver p :: post) Hc1 Hsub')
    as [-> _].
  rewrite verdict_quiet_prefix by exact Hq. cbn [verdict].
  unfold screen, decode. rewrite Hvalue, Hround, Hacc.
  unfold event_of. rewrite Htopic, Hkey. reflexivity.
Qed.

(** At a key that is given and falsy: the message comes back, the key
    [0] does not. *)
Lemma produced_message_round_trips_witness :
  isConnected connected_helper = true
  /\ to_String (JsNumber 0%Z) = "0"
  /\ exists request,
       sent (cluster (snd (produceMessage "order-events" order_created (JsNumber 0%Z)
                             connected_helper)))
       = [request]
       /\ Sent.key request = None
       /\ outcome
            (await_consumeMessage
               (snd (produceMessage "order-events" order_created (JsNumber 0%Z)
                       connected_helper))
               "order-events" (with_filter order_is_X)
               ([Deliver (record other_order "0")]
                  ++ Deliver (Payload.make "order-events" 0%Z
                                (Message.make (Sent.key request) (Some (Sent.value request))
                                   "1" "1700000000000"))
                  :: [TimerFires]))
          = Returned (Some (Event.make "order-events" 0%Z "1" None order_created
                              "1700000000000")).
Proof.
  split; [reflexivity|]. split; [reflexivity|].
  destruct (produced_message_round_trips (js := sample_builtins)
              connected_helper "order-events" order_created
              (@JsNumber sample_builtins 0%Z) (with_filter order_is_X)
              [Deliver (record other_order "0")]
              (Payload.make "order-events" 0%Z
                 (Message.make None (Some (Sample.stringify order_created))
                    "1" "1700000000000"))
              [TimerFires] order_created
              eq_refl eq_refl eq_refl eq_refl eq_refl eq_refl)
    as (_ & request & H1 & _ & H3 & H4).
  exists request. split; [exact H1|]. split; [exact H3|].
  assert (Hr : request = Sent.make "order-events" None (Sample.stringify order_created)).
  { cbn in H1. injection H1 as <-. reflexivity. }
  subst request. apply H4. repeat split; reflexivity.
Defined.

(** * Further properties of the helper *)

(** ** The state in which a call leaves the helper *)

Lemma consumeMessage_ends_state {js : Builtins} kh topic options schedule :
  isConnected kh = true ->
  subscribe_error (cluster kh) topic = None ->
  exists (w : WaitOne) rest,
    await_consumeMessage kh topic options schedule = Waited w rest
    /\ completion_of (promise w) = verdict (Options.filter options) schedule
    /\ cluster (this w) = cluster kh
    /\ isConnected (this w) = true
    /\ match verdict (Options.filter options) schedule with
       | Suspended =>
           consumer (this w) = armed_consumer kh topic options
           /\ timer w = Armed (default 10000%Z (Options.timeout options))
       | Returned None =>
           consumer (this w) = armed_consumer kh topic options /\ timer w = Fired
       | Returned (Some _) | Threw _ =>
           consumer (this w) = stopped (armed_consumer kh topic options)
           /\ timer w = Cleared
       end.
Proof.
  intros Hc Hs.
  destruct (consumeMessage_arms kh topic options Hc Hs)
    as (w & Hw & Hp & Ht & Hcons & Hcl & Hic).
  assert (Hrun : running (consumer (this w)) = true) by (rewrite Hcons; reflexivity).
  pose proof (await_verdict topic options schedule w _ Hp Hrun Ht) as Hv.
  cbv zeta in Hv. destruct Hv as (Hv & Hcl' & Hic' & Hm).
  unfold await_consumeMessage, call. rewrite Hw.
  destruct (await (consumeMessage_callbacks topic options) w schedule) as [w' rest].
  cbn [fst] in *.
  destruct (completed_undisturbed ("Failed to consume message from topic: " ++ topic)%string w')
    as (U1 & U2 & U3 & U4 & U5 & _).
  eexists; eexists. split; [reflexivity|].
  rewrite U1, U2, U3, U4, U5, <- Hcons. repeat split; try congruence.
Qed.

(** ** [consumeMessages]: a record that throws *)

(** X3. When a record fails to decode, or makes the filter raise, after some
    records have matched and before the cap or the timer,
    [consumeMessages] throws that error: the matches gathered so far are
    not handed to the caller, the consumer is stopped and the occurrences
    after the record are not observed. *)
Theorem consumeMessages_fault_discards_matches {js : Builtins} kh topic options pre p e post :
  isConnected kh = true ->
  subscribe_error (cluster kh) topic = None ->
  forallb (faultless (Options.filter options)) pre = true ->
  (Z.of_nat (List.length (matches (Options.filter options) pre)) < cap_in_force options)%Z ->
  screen (Options.filter options) p = inl e ->
  exists w : WaitMany,
    await_consumeMessages kh topic options (pre ++ Deliver p :: post) = Waited w post
    /\ outcome (Waited w post) = Threw e
    /\ returned_messages (Waited w post) = None
    /\ locals w = matches (Options.filter options) pre
    /\ running (consumer (this w)) = false
    /\ timer w = Cleared.
Proof.
  intros Hc Hs Hf Hlen Hfault. unfold cap_in_force in Hlen.
  destruct (consumeMessages_arms kh topic options Hc Hs)
    as (w & Hw & Hp & Ht & Hcons & Hloc & _).
  assert (Hrun : running (consumer (this w)) = true) by (rewrite Hcons; reflexivity).
  unfold await_consumeMessages, call. rewrite Hw.
  rewrite await_gathering by (auto; rewrite Hloc; simpl; lia).
  rewrite await_pending_cons by assumption.
  rewrite many_turn_fault with (e := e) by assumption.
  cbn [this timer promise locals]. rewrite Hloc, Hp, Ht. cbn [app clear settled_with].
  rewrite await_settled by discriminate.
  eexists; split; [reflexivity|]. unfold completed. simpl. auto 6.
Qed.

Lemma consumeMessages_fault_discards_matches_witness :
  isConnected connected_helper = true
  /\ exists w : WaitMany,
       await_consumeMessages connected_helper "order-events"
         (Options.make (Some order_is_X) None None (Some 3%Z))
         ([Deliver (record order_created "0")]
            ++ Deliver (garbled "1") :: [Deliver (record order_shipped "2")])
       = Waited w [Deliver (record order_shipped "2")]
       /\ outcome (Waited w [Deliver (record order_shipped "2")])
          = Threw (SyntaxError "Unexpected token in JSON")
       /\ returned_messages (Waited w [Deliver (record order_shipped "2")]) = None
       /\ locals w = [event_of (record order_created "0") order_created].
Proof.
  split; [reflexivity|].
  destruct (consumeMessages_fault_discards_matches connected_helper "order-events"
              (Options.make (Some order_is_X) None None (Some 3%Z))
              [Deliver (record order_created "0")] (garbled "1")
              (SyntaxError "Unexpected token in JSON")
              [Deliver (record order_shipped "2")]
              eq_refl eq_refl eq_refl eq_refl eq_refl)
    as (w & H1 & H2 & H3 & H4 & _).
  exists w. repeat split; assumption.
Defined.


(** ** After the call has returned *)

Lemma run_quiescent {A L : Type} (cb : Callbacks A L) more :
  onDisconnect cb = None ->
  onCrash cb = None ->
  forall w : Wait A L,
  running (consumer (this w)) = false ->
  (forall d, timer w <> Armed d) ->
  run cb w more = w.
Proof.
  intros Hdis Hcrash.
  induction more as [|o rest IH]; intros w Hrun Ht; [reflexivity|].
  assert (Hd : dispatch cb w o = w).
  { destruct o as [p| | |crash].
    - simpl. rewrite Hrun. reflexivity.
    - simpl. destruct (timer w) as [d| |] eqn:E; [destruct (Ht d); reflexivity| |];
        reflexivity.
    - apply dispatch_report; auto.
    - apply dispatch_report; auto. }
  change (run cb w (o :: rest)) with (run cb (dispatch cb w o) rest).
  rewrite Hd. apply IH; assumption.
Qed.

(** X4. Once [consumeMessage] has returned an event, or has thrown out of
    the wait, the helper is inert: the consumer is stopped and the timer
    cleared, so no later record, timer or disconnect changes the helper,
    its log output or the result. *)
Theorem consumeMessage_is_inert_after_match_or_error {js : Builtins}
  kh topic options schedule more :
  isConnected kh = true ->
  subscribe_error (cluster kh) topic = None ->
  verdict (Options.filter options) schedule <> Suspended ->
  verdict (Options.filter options) schedule <> Returned None ->
  exists (w : WaitOne) rest,
    await_consumeMessage kh topic options schedule = Waited w rest
    /\ running (consumer (this w)) = false
    /\ timer w = Cleared
    /\ run (consumeMessage_callbacks topic options) w more = w.
Proof.
  intros Hc Hs Hv1 Hv2.
  destruct (consumeMessage_ends_state kh topic options schedule Hc Hs)
    as (w & rest & Hw & _ & _ & _ & Hm).
  exists w, rest. split; [exact Hw|].
  assert (H : consumer (this w) = stopped (armed_consumer kh topic options)
              /\ timer w = Cleared).
  { destruct (verdict (Options.filter options) schedule) as [[ev|]|e|];
      try exact Hm; congruence. }
  destruct H as [H1 H2].
  assert (Hrun : running (consumer (this w)) = false) by (rewrite H1; reflexivity).
  split; [exact Hrun|]. split; [exact H2|].
  apply run_quiescent; [reflexivity | reflexivity | exact Hrun |].
  intros d. rewrite H2. discriminate.
Qed.

Lemma consumeMessage_is_inert_after_match_or_error_witness :
  isConnected connected_helper = true
  /\ exists (w : WaitOne) rest,
       await_consumeMessage connected_helper "order-events" (with_filter order_is_X)
         [Deliver (record other_order "0"); Deliver (record order_created "1")]
       = Waited w rest
       /\ run (consumeMessage_callbacks "order-events" (with_filter order_is_X)) w
            [Deliver (garbled "2"); TimerFires; Deliver (record order_created "3")]
          = w.
Proof.
  split; [reflexivity|].
  destruct (consumeMessage_is_inert_after_match_or_error connected_helper "order-events"
              (with_filter order_is_X)
              [Deliver (record other_order "0"); Deliver (record order_created "1")]
              [Deliver (garbled "2"); TimerFires; Deliver (record order_created "3")]
              eq_refl eq_refl)
    as (w & rest & H1 & _ & _ & H4);
    [change (verdict (Options.filter (with_filter order_is_X))
               [Deliver (record other_order "0"); Deliver (record order_created "1")])
       with (Returned (Some (event_of (record order_created "1") order_created)));
     discriminate ..|].
  exists w, rest. split; assumption.
Defined.

Section Bound.
Context {js : Builtins}.
Variable options : Options.t.

Lemma dispatch_within_cap (w : WaitMany) o :
  within_cap options w -> within_cap options (dispatch (consumeMessages_callbacks options) w o).
Proof.
  intros [Hle Hlt]. destruct o as [p| | |crash].
  - destruct (running (consumer (this w))) eqn:Hrun;
      [|simpl; rewrite Hrun; split; [assumption | rewrite Hrun; discriminate]].
    specialize (Hlt eq_refl).
    destruct (screen (Options.filter options) p) as [e|[ev|]] eqn:Hs.
    + rewrite (many_turn_fault options w p e Hrun Hs).
      split; simpl; [lia | discriminate].
    + rewrite (many_turn_push options w p ev Hrun Hs).
      unfold within_cap, cap_in_force in *.
      destruct (Z.geb _ _) eqn:Hge; cbn [this locals stop_consumer]; rewrite length_app;
        cbn [List.length].
      * split; [lia|]. simpl. discriminate.
      * rewrite Z.geb_leb in Hge. apply Z.leb_gt in Hge.
        rewrite length_app in Hge. cbn [List.length] in Hge. split; [lia | intros _; lia].
    + rewrite many_turn_skip by (simpl; rewrite Hs; reflexivity).
      split; [assumption | intros _; assumption].
  - destruct (timer w) as [d| |] eqn:Ht.
    + destruct (many_turn_timer options w d Ht) as (_ & H2 & _ & H4).
      unfold within_cap. cbv zeta in H2, H4. rewrite H2, H4.
      split; [assumption | intros Hr; apply Hlt; assumption].
    + simpl. rewrite Ht. split; assumption.
    + simpl. rewrite Ht. split; assumption.
  - split; assumption.
  - split; assumption.
Qed.

Lemma run_within_cap schedule : forall w : WaitMany,
  within_cap options w -> within_cap options (run (consumeMessages_callbacks options) w schedule).
Proof.
  induction schedule as [|o rest IH]; intros w Hw; [exact Hw|].
  change (run (consumeMessages_callbacks options) w (o :: rest))
    with (run (consumeMessages_callbacks options)
            (dispatch (consumeMessages_callbacks options) w o) rest).
  apply IH. apply dispatch_within_cap. exact Hw.
Qed.

Lemma await_within_cap schedule : forall w : WaitMany,
  within_cap options w ->
  within_cap options (fst (await (consumeMessages_callbacks options) w schedule)).
Proof.
  induction schedule as [|o rest IH]; intros w Hw.
  - simpl. destruct (promise w); exact Hw.
  - destruct (promise w) eqn:Hp.
    + rewrite await_pending_cons by assumption. apply IH. apply dispatch_within_cap. exact Hw.
    + rewrite await_settled by (rewrite Hp; discriminate). exact Hw.
    + rewrite await_settled by (rewrite Hp; discriminate). exact Hw.
Qed.
End Bound.

(** X5. The array of [consumeMessages] never holds more than the cap in
    force, [max 1 maxMessages]: not when the caller resumes, and not at
    any later time, whatever the brokers deliver after the return (also
    after a timeout, which leaves the consumer running). *)
Theorem consumeMessages_never_exceeds_cap {js : Builtins} kh topic options schedule more :
  isConnected kh = true ->
  subscribe_error (cluster kh) topic = None ->
  exists (w : WaitMany) rest,
    await_consumeMessages kh topic options schedule = Waited w rest
    /\ (Z.of_nat (List.length (read (run (consumeMessages_callbacks options) w more) messages))
        <= cap_in_force options)%Z.
Proof.
  intros Hc Hs.
  destruct (consumeMessages_arms kh topic options Hc Hs)
    as (w & Hw & Hp & Ht & Hcons & Hloc & _).
  unfold await_consumeMessages, call. rewrite Hw.
  assert (H0 : within_cap options w).
  { unfold within_cap, cap_in_force. rewrite Hloc. simpl. lia. }
  pose proof (await_within_cap options schedule w H0) as H1.
  destruct (await (consumeMessages_callbacks options) w schedule) as [w' rest].
  cbn [fst] in H1.
  destruct (completed_undisturbed ("Failed to consume messages from topic: " ++ topic)%string w')
    as (U1 & _ & _ & _ & _ & U6).
  eexists; eexists. split; [reflexivity|].
  cbn [read]. apply run_within_cap.
  unfold within_cap. rewrite U1, U6. exact H1.
Qed.

Lemma consumeMessages_never_exceeds_cap_witness :
  isConnected connected_helper = true
  /\ exists (w : WaitMany) rest,
       await_consumeMessages connected_helper "order-events"
         (Options.make None None None (Some 2%Z))
         [Deliver (record order_created "0"); TimerFires]
       = Waited w rest
       /\ (Z.of_nat (List.length
             (read (run (consumeMessages_callbacks (Options.make None None None (Some 2%Z))) w
                      [Deliver (record order_shipped "1"); Deliver (record other_order "2")])
                   messages))
           <= 2)%Z.
Proof.
  split; [reflexivity|].
  exact (consumeMessages_never_exceeds_cap connected_helper "order-events"
           (Options.make None None None (Some 2%Z))
           [Deliver (record order_created "0"); TimerFires]
           [Deliver (record order_shipped "1"); Deliver (record other_order "2")]
           eq_refl eq_refl).
Defined.

(** ** A settled promise stays as it is *)

Lemma settled_with_settled {A : Type} (now before : Promise A) :
  before <> Pending -> settled_with now before = before.
Proof. destruct before; [congruence | reflexivity | reflexivity]. Qed.

Lemma run_keeps {A L : Type} (cb : Callbacks A L) (Q : Wait A L -> Prop) :
  (forall w o, Q w -> Q (dispatch cb w o)) ->
  forall more w, Q w -> Q (run cb w more).
Proof.
  intros Hstep more. induction more as [|o rest IH]; intros w Hw; [exact Hw|].
  change (run cb w (o :: rest)) with (run cb (dispatch cb w o) rest).
  apply IH, Hstep, Hw.
Qed.

Lemma consumeMessage_turn_keeps_settled {js : Builtins} topic options (w : WaitOne) o :
  promise w <> Pending ->
  promise (dispatch (consumeMessage_callbacks topic options) w o) = promise w.
Proof.
  intros Hp. destruct o as [p| | |crash].
  - destruct (running (consumer (this w))) eqn:Hrun; [|simpl; rewrite Hrun; reflexivity].
    destruct (screen (Options.filter options) p) as [e|[ev|]] eqn:Hs.
    + destruct (one_turn_fault topic options w p e Hrun Hs) as (H1 & _).
      rewrite H1. apply settled_with_settled, Hp.
    + destruct (one_turn_match topic options w p ev Hrun Hs) as (H1 & _).
      rewrite H1. apply settled_with_settled, Hp.
    + assert (Hq : quiet (Options.filter options) (Deliver p) = true)
        by (simpl; rewrite Hs; reflexivity).
      destruct (one_turn_quiet topic options w _ Hq) as (_ & _ & _ & _ & U5 & _).
      exact U5.
  - destruct (timer w) as [d| |] eqn:Ht; [|simpl; rewrite Ht; reflexivity ..].
    destruct (one_turn_timer topic options w d Ht) as (H1 & _).
    rewrite H1. apply settled_with_settled, Hp.
  - reflexivity.
  - reflexivity.
Qed.

Lemma consumeMessages_turn_keeps_settled {js : Builtins} options (w : WaitMany) o :
  promise w <> Pending ->
  promise (dispatch (consumeMessages_callbacks options) w o) = promise w.
Proof.
  intros Hp. destruct o as [p| | |crash].
  - destruct (running (consumer (this w))) eqn:Hrun; [|simpl; rewrite Hrun; reflexivity].
    destruct (screen (Options.filter options) p) as [e|[ev|]] eqn:Hs.
    + rewrite (many_turn_fault options w p e Hrun Hs). cbn [promise].
      apply settled_with_settled, Hp.
    + rewrite (many_turn_push options w p ev Hrun Hs).
      destruct (Z.geb _ _); cbn [promise]; [apply settled_with_settled, Hp | reflexivity].
    + rewrite many_turn_skip by (simpl; rewrite Hs; reflexivity). reflexivity.
  - destruct (timer w) as [d| |] eqn:Ht; [|simpl; rewrite Ht; reflexivity ..].
    destruct (many_turn_timer options w d Ht) as (H1 & _).
    cbv zeta in H1. rewrite H1. apply settled_with_settled, Hp.
  - reflexivity.
  - reflexivity.
Qed.

(** X6. What [consumeMessage] handed to its caller is final: in a wait whose
    promise is settled, the later calls of [resolve] and [reject] (a
    matching or a failing record after a timeout, which leaves the
    consumer running) do not replace the result. *)
Theorem consumeMessage_result_is_final {js : Builtins} topic options (w : WaitOne) more :
  promise w <> Pending ->
  promise (run (consumeMessage_callbacks topic options) w more) = promise w.
Proof.
  intros Hp.
  assert (H : promise (run (consumeMessage_callbacks topic options) w more) = promise w
              /\ promise (run (consumeMessage_callbacks topic options) w more) <> Pending).
  { apply (run_keeps (consumeMessage_callbacks topic options)
             (fun w' : WaitOne => promise w' = promise w /\ promise w' <> Pending)).
    - intros w' o [E1 E2].
      rewrite (consumeMessage_turn_keeps_settled topic options w' o E2). split; assumption.
    - split; [reflexivity | exact Hp]. }
  exact (proj1 H).
Qed.

Lemma consumeMessage_result_is_final_witness :
  promise (run (consumeMessage_callbacks "order-events" Options.empty)
             (mkWait (with_consumer connected_helper
                        (armed_consumer connected_helper "order-events" Options.empty))
                     Fired (Resolved None) tt)
             [Deliver (record order_created "0"); Deliver (garbled "1")])
  = Resolved None.
Proof.
  apply (consumeMessage_result_is_final "order-events" Options.empty
           (mkWait (with_consumer connected_helper
                      (armed_consumer connected_helper "order-events" Options.empty))
                   Fired (Resolved None) tt)).
  simpl. discriminate.
Defined.

(** X7. The same for [consumeMessages]: the caller keeps the array it was
    given (or the error), also when the cap is reached, or a record
    fails, after the timeout. *)
Theorem consumeMessages_result_is_final {js : Builtins} options (w : WaitMany) more :
  promise w <> Pending ->
  promise (run (consumeMessages_callbacks options) w more) = promise w.
Proof.
  intros Hp.
  assert (H : promise (run (consumeMessages_callbacks options) w more) = promise w
              /\ promise (run (consumeMessages_callbacks options) w more) <> Pending).
  { apply (run_keeps (consumeMessages_callbacks options)
             (fun w' : WaitMany => promise w' = promise w /\ promise w' <> Pending)).
    - intros w' o [E1 E2].
      rewrite (consumeMessages_turn_keeps_settled options w' o E2). split; assumption.
    - split; [reflexivity | exact Hp]. }
  exact (proj1 H).
Qed.

Lemma consumeMessages_result_is_final_witness :
  promise (run (consumeMessages_callbacks (Options.make None None None (Some 1%Z)))
             (mkWait (with_consumer connected_helper
                        (armed_consumer connected_helper "order-events" Options.empty))
                     Fired (Resolved messages) [])
             [Deliver (garbled "0"); Deliver (record order_created "1")])
  = Resolved messages.
Proof.
  apply (consumeMessages_result_is_final (Options.make None None None (Some 1%Z))
           (mkWait (with_consumer connected_helper
                      (armed_consumer connected_helper "order-events" Options.empty))
                   Fired (Resolved messages) [])).
  simpl. discriminate.
Defined.

(** ** [connect] and [subscribe] that fail *)

(** X8. When [connect] fails on a new helper, it throws the error of the
    client library after logging it, the helper stays unconnected, and
    [produceMessage], [consumeMessage] and [consumeMessages] then throw
    the connection error without any effect on the helper: nothing is
    sent, subscribed or logged. *)
Theorem failed_connect_leaves_helper_unusable {js : Builtins} k e topic message key options :
  connect_error k = Some e ->
  let kh := snd (connect (constructor k)) in
  fst (connect (constructor k)) = inl e
  /\ isConnected kh = false
  /\ logged kh = [(INFO, "Connecting to Kafka..."); (ERROR, "Failed to connect to Kafka")]
  /\ produceMessage topic message key kh = (inl not_connected, kh)
  /\ consumeMessage topic options kh = (inl not_connected, kh)
  /\ consumeMessages topic options kh = (inl not_connected, kh).
Proof.
  intros He kh. subst kh.
  unfold connect, constructor, produceMessage, consumeMessage, consumeMessages.
  js_unfold. simpl. rewrite He. simpl. repeat split; reflexivity.
Qed.

Lemma failed_connect_leaves_helper_unusable_witness :
  produceMessage "order-events" order_created null
    (snd (connect (constructor
       (mkCluster [] (Some (KafkaJSError "Connection timeout"))
          (fun _ => None) (fun _ => None)))))
  = (inl not_connected,
     snd (connect (constructor
       (mkCluster [] (Some (KafkaJSError "Connection timeout"))
          (fun _ => None) (fun _ => None))))).
Proof.
  destruct (failed_connect_leaves_helper_unusable (js := sample_builtins)
              (mkCluster [] (Some (KafkaJSError "Connection timeout"))
                 (fun _ => None) (fun _ => None))
              (KafkaJSError "Connection timeout") "order-events" order_created
              (@null sample_builtins) Options.empty eq_refl)
    as (_ & _ & _ & H & _).
  exact H.
Defined.

(** X9. When [subscribe] rejects, both methods throw its error: the consumer
    has received the [subscribe] and nothing else ([run] is not called
    and no timer or promise is created), and the failure is logged. *)
Theorem subscribe_failure_is_rethrown {js : Builtins} kh topic options e schedule :
  isConnected kh = true ->
  subscribe_error (cluster kh) topic = Some e ->
  let request := Subscribe topic (default true (Options.fromBeginning options)) in
  let one := await_consumeMessage kh topic options schedule in
  let many := await_consumeMessages kh topic options schedule in
  (exists kh', one = Refused e kh'
     /\ consumer kh' = mkConsumer (calls (consumer kh) ++ [request]) (running (consumer kh))
     /\ In (ERROR, "Failed to consume message from topic: " ++ topic)%string (logged kh'))
  /\ (exists kh', many = Refused e kh'
        /\ consumer kh' = mkConsumer (calls (consumer kh) ++ [request]) (running (consumer kh))
        /\ In (ERROR, "Failed to consume messages from topic: " ++ topic)%string (logged kh')).
Proof.
  intros Hc Hs request one many. subst request one many.
  unfold await_consumeMessage, await_consumeMessages, call, consumeMessage, consumeMessages.
  js_unfold. rewrite Hc. simpl. rewrite Hs. simpl.
  split; eexists; (split; [reflexivity|]); simpl; (split; [reflexivity|]);
    rewrite !in_app_iff; simpl; auto.
Qed.

Lemma subscribe_failure_is_rethrown_witness :
  isConnected (helper_on strict_cluster) = true
  /\ exists kh',
       await_consumeMessages (helper_on strict_cluster) EmptyString Options.empty [TimerFires]
       = Refused (KafkaJSError "Missing required argument topics") kh'
       /\ consumer kh' = mkConsumer [Subscribe EmptyString true] false.
Proof.
  split; [reflexivity|].
  destruct (subscribe_failure_is_rethrown (helper_on strict_cluster) EmptyString Options.empty
              (KafkaJSError "Missing required argument topics") [TimerFires]
              eq_refl eq_refl)
    as (_ & kh' & H1 & H2 & _).
  exists kh'. split; [exact H1 | exact H2].
Defined.

(** ** [disconnect] *)

Ltac teardown_unfold :=
  unfold disconnect, client_disconnect, on_helper; js_unfold; simpl.

(** X10. [disconnect] asks the producer, then the consumer, to disconnect,
    skipping a client that is null. When none rejects, [isConnected]
    becomes false. When one rejects, the error is logged and thrown
    again, [isConnected] keeps its value, and a producer that rejects
    keeps the consumer from being disconnected at all. What the producer
    has sent and the consumer's subscription state are never touched. *)
Theorem disconnect_outcomes clients kh called :
  let r := disconnect clients (kh, called) in
  let kh' := fst (snd r) in
  cluster kh' = cluster kh
  /\ consumer kh' = consumer kh
  /\ snd (snd r) = called ++ attempted clients
  /\ match first_rejection clients with
     | Some e =>
         fst r = inl e
         /\ isConnected kh' = isConnected kh
         /\ logged kh' = logged kh ++ [(ERROR, "Error disconnecting from Kafka")]
     | None =>
         fst r = inr tt
         /\ isConnected kh' = false
         /\ logged kh' = logged kh ++ [(INFO, "Disconnected from Kafka")]
     end.
Proof.
  destruct clients as [[[e1|]|] [[e2|]|]]; unfold first_rejection, attempted;
    teardown_unfold; rewrite ?List.app_nil_r, <- ?List.app_assoc; simpl;
    repeat split; reflexivity.
Qed.

(** X11. After a [disconnect] that succeeded, the three methods throw the
    connection error and leave the helper as it is, until [connect] is
    called again. *)
Theorem disconnected_helper_refuses {js : Builtins} clients kh called topic message key options :
  first_rejection clients = None ->
  let kh' := fst (snd (disconnect clients (kh, called))) in
  produceMessage topic message key kh' = (inl not_connected, kh')
  /\ consumeMessage topic options kh' = (inl not_connected, kh')
  /\ consumeMessages topic options kh' = (inl not_connected, kh').
Proof.
  intros Hr kh'.
  assert (Hc : isConnected kh' = false).
  { subst kh'. destruct clients as [[[e1|]|] [[e2|]|]]; try discriminate Hr;
      teardown_unfold; reflexivity. }
  unfold produceMessage, consumeMessage, consumeMessages. js_unfold. rewrite Hc.
  repeat split; reflexivity.
Qed.

Lemma disconnected_helper_refuses_witness :
  isConnected connected_helper = true
  /\ consumeMessage "order-events" Options.empty
       (fst (snd (disconnect (mkClients (Some None) (Some None)) (connected_helper, []))))
     = (inl not_connected,
        fst (snd (disconnect (mkClients (Some None) (Some None)) (connected_helper, [])))).
Proof.
  split; [reflexivity|].
  destruct (disconnected_helper_refuses (js := sample_builtins)
              (mkClients (Some None) (Some None)) connected_helper []
              "order-events" order_created (@null sample_builtins) Options.empty eq_refl)
    as (_ & H & _).
  exact H.
Defined.

(** ** A polling loop of [consumeMessage] calls *)



(** ** The configuration of the client *)

Lemma split_on_cons sep s : exists first more, split_on sep s = first :: more.
Proof.
  destruct s as [|c r]; simpl; [eauto|].
  destruct (Ascii.eqb c sep); [eauto|].
  destruct (split_on sep r); eauto.
Qed.

Lemma concat_split_on sep s : String.concat (String sep EmptyString) (split_on sep s) = s.
Proof.
  induction s as [|c r IH]; [reflexivity|].
  cbn [split_on]. destruct (Ascii.eqb c sep) eqn:Hc.
  - apply Ascii.eqb_eq in Hc. subst c.
    destruct (split_on_cons sep r) as (first & more & Hr). rewrite Hr in *.
    cbn [String.concat]. simpl. rewrite <- IH. reflexivity.
  - destruct (split_on_cons sep r) as (first & more & Hr). rewrite Hr in *.
    destruct more as [|second more]; cbn [String.concat] in *; simpl; rewrite <- IH; reflexivity.
Qed.

Lemma length_split_on sep s : List.length (split_on sep s) = S (occurrences sep s).
Proof.
  induction s as [|c r IH]; [reflexivity|].
  cbn [split_on occurrences]. destruct (Ascii.eqb c sep).
  - cbn [List.length]. rewrite IH. reflexivity.
  - destruct (split_on_cons sep r) as (first & more & Hr). rewrite Hr in *.
    cbn [List.length] in *. exact IH.
Qed.

Lemma split_on_parts sep s : Forall (fun part => occurrences sep part = 0) (split_on sep s).
Proof.
  induction s as [|c r IH]; [repeat constructor|].
  cbn [split_on]. destruct (Ascii.eqb c sep) eqn:Hc.
  - constructor; [reflexivity | exact IH].
  - destruct (split_on_cons sep r) as (first & more & Hr). rewrite Hr in *.
    inversion IH as [|? ? H1 H2]; subst. constructor; [|exact H2].
    cbn [occurrences]. rewrite Hc, H1. reflexivity.
Qed.

(** X15. The broker list of the configuration. When [KAFKA_BROKERS] is set,
    the list has one entry more than the variable has commas, no entry
    contains a comma, and joining the entries with commas gives the
    variable back: nothing is trimmed or dropped, so an empty variable
    gives the one broker [""] and not the default. Only an unset
    variable gives [localhost:9092]. The list is never empty. *)
Theorem brokers_of_environment env :
  let brokers := KafkaSection.brokers (config_kafka env) in
  brokers <> []
  /\ match env "KAFKA_BROKERS" with
     | Some s =>
         String.concat "," brokers = s
         /\ List.length brokers = S (occurrences "," s)
         /\ Forall (fun broker => occurrences "," broker = 0) brokers
     | None => brokers = ["localhost:9092"]
     end.
Proof.
  unfold config_kafka. cbn [KafkaSection.brokers].
  destruct (env "KAFKA_BROKERS") as [s|].
  - split.
    + destruct (split_on_cons "," s) as (first & more & Hs). rewrite Hs. discriminate.
    + split; [apply concat_split_on|]. split; [apply length_split_on | apply split_on_parts].
  - split; [discriminate | reflexivity].
Qed.

Lemma assoc_set_property name v o k :
  assoc k (set_property name v o)
  = if String.eqb name k then Some v else assoc k o.
Proof.
  induction o as [|[k' x] rest IH]; cbn [set_property assoc].
  - reflexivity.
  - destruct (String.eqb k' name) eqn:Hk; cbn [assoc].
    + apply String.eqb_eq in Hk. subst k'.
      destruct (String.eqb name k); reflexivity.
    + destruct (String.eqb k' k) eqn:Hk'; [|exact IH].
      apply String.eqb_eq in Hk'. subst k'.
      rewrite String.eqb_sym, Hk. reflexivity.
Qed.

Lemma assoc_app k (l1 l2 : JsObject) :
  assoc k (l1 ++ l2) = match assoc k l1 with Some v => Some v | None => assoc k l2 end.
Proof.
  induction l1 as [|[k' x] rest IH]; [reflexivity|].
  rewrite <- app_comm_cons. simpl assoc.
  destruct (String.eqb k' k); [reflexivity | exact IH].
Qed.

Lemma assoc_spread k custom : forall base,
  assoc k (spread base custom)
  = match assoc k (List.rev custom) with
    | Some v => Some v
    | None => assoc k base
    end.
Proof.
  unfold spread. induction custom as [|[k' x] rest IH]; intros base; [reflexivity|].
  cbn [fold_left fst snd List.rev]. rewrite IH, assoc_app. cbn [assoc].
  destruct (assoc k (List.rev rest)); [reflexivity|].
  rewrite assoc_set_property. destruct (String.eqb k' k); reflexivity.
Qed.

(** X16. Which value a property of [kafkaConfig] has. [ssl] is [true] when
    the environment switches it on, and [sasl] holds the credentials of
    the environment when both are configured, whatever [customConfig]
    says: the two assignments come after the spread. Every other
    property, and these two otherwise, has the value of [customConfig]
    when it has the property, and else the value from the configuration
    (none for a property that is in neither). *)
Theorem kafkaConfig_precedence level_ERROR cfg customConfig name :
  assoc name (kafkaConfig level_ERROR cfg customConfig)
  = if String.eqb "ssl" name && KafkaSection.ssl cfg then Some (JSON.Bool true)
    else if String.eqb "sasl" name
            && (configured (KafkaSection.username cfg)
                && configured (KafkaSection.password cfg))
    then Some (JSON.Object
                 [("mechanism", JSON.Str "plain");
                  ("username", JSON.Str (default EmptyString (KafkaSection.username cfg)));
                  ("password", JSON.Str (default EmptyString (KafkaSection.password cfg)))])
    else match assoc name (List.rev customConfig) with
         | Some v => Some v
         | None =>
             assoc name
               [("clientId", JSON.Str (KafkaSection.clientId cfg));
                ("brokers", JSON.Array (map JSON.Str (KafkaSection.brokers cfg)));
                ("connectionTimeout", JSON.Number (KafkaSection.connectionTimeout cfg));
                ("requestTimeout", JSON.Number (KafkaSection.requestTimeout cfg));
                ("logLevel", level_ERROR)]
         end.
Proof.
  unfold kafkaConfig.
  destruct (KafkaSection.ssl cfg);
    destruct (configured (KafkaSection.username cfg) && configured (KafkaSection.password cfg));
    rewrite ?assoc_set_property, ?assoc_spread, ?andb_true_r, ?andb_false_r;
    try reflexivity;
    destruct (String.eqb "ssl" name); reflexivity.
Qed.

(** ** [consumeMessages] with a cap of one *)

(** X17. With a cap of one ([maxMessages] 1, or any value below: the cap in
    force is never under one), [consumeMessages] is [consumeMessage] with
    the answer in an array: it returns the one event where
    [consumeMessage] returns an event, the empty array where it returns
    [null], and throws the error where it throws. *)
Theorem consumeMessages_with_cap_one_is_consumeMessage {js : Builtins} kh topic options schedule :
  isConnected kh = true ->
  subscribe_error (cluster kh) topic = None ->
  cap_in_force options = 1%Z ->
  match outcome (await_consumeMessage kh topic options schedule) with
  | Returned (Some ev) =>
      returned_messages (await_consumeMessages kh topic options schedule) = Some [ev]
  | Returned None =>
      returned_messages (await_consumeMessages kh topic options schedule) = Some []
  | Threw e => outcome (await_consumeMessages kh topic options schedule) = Threw e
  | Suspended => outcome (await_consumeMessages kh topic options schedule) = Suspended
  end.
Proof.
  intros Hc Hs Hcap. unfold cap_in_force in Hcap.
  destruct (consumeMessage_ends kh topic options schedule Hc Hs) as [Ho _]. rewrite Ho.
  destruct (first_loud (Options.filter options) schedule)
    as [Hq | (pre & o & post & -> & Hq & Hloud)].
  - rewrite verdict_all_quiet by exact Hq.
    destruct (quiet_is_faultless _ _ Hq) as [Hf Hm].
    destruct (consumeMessages_arms kh topic options Hc Hs)
      as (w & Hw & Hp & Ht & Hcons & Hloc & _).
    assert (Hrun : running (consumer (this w)) = true) by (rewrite Hcons; reflexivity).
    unfold await_consumeMessages, call. rewrite Hw.
    rewrite <- (List.app_nil_r schedule).
    rewrite await_gathering by (auto; rewrite Hloc, Hm; simpl; lia).
    simpl await. rewrite Hp. unfold completed. cbn [promise outcome]. reflexivity.
  - rewrite verdict_quiet_prefix by exact Hq.
    destruct (quiet_is_faultless _ _ Hq) as [Hf Hm].
    destruct o as [p| | |crash]; [| |discriminate Hloud ..].
    + cbn [quiet] in Hloud. cbn [verdict].
      destruct (screen (Options.filter options) p) as [e|[ev|]] eqn:Hscreen;
        [| |discriminate Hloud].
      * destruct (consumeMessages_arms kh topic options Hc Hs)
          as (w & Hw & Hp & Ht & Hcons & Hloc & _).
        assert (Hrun : running (consumer (this w)) = true) by (rewrite Hcons; reflexivity).
        unfold await_consumeMessages, call. rewrite Hw.
        rewrite await_gathering by (auto; rewrite Hloc, Hm; simpl; lia).
        rewrite await_pending_cons by assumption.
        rewrite many_turn_fault with (e := e) by assumption.
        cbn [this timer promise locals]. rewrite Hp. cbn [settled_with].
        rewrite await_settled by discriminate.
        unfold completed. reflexivity.
      * destruct (consumeMessages_fills kh topic options pre p ev post Hc Hs Hf Hscreen)
          as (w & Hw & Hp & Hloc & _); [rewrite Hm; simpl; lia|].
        rewrite Hw. cbn [returned_messages]. rewrite Hp. cbn [read].
        rewrite Hloc, Hm. reflexivity.
    + cbn [verdict].
      destruct (consumeMessages_times_out kh topic options pre post Hc Hs Hf)
        as (w & Hw & Hp & Hloc & _); [rewrite Hm; simpl; lia|].
      rewrite Hw. cbn [returned_messages]. rewrite Hp. cbn [read].
      rewrite Hloc, Hm. reflexivity.
Qed.

Lemma consumeMessages_with_cap_one_is_consumeMessage_witness :
  outcome (await_consumeMessage connected_helper "order-events"
             (Options.make (Some order_is_X) None None (Some 0%Z))
             [Deliver (record other_order "0"); Deliver (record order_created "1");
              Deliver (record order_shipped "2")])
  = Returned (Some (event_of (record order_created "1") order_created))
  /\ returned_messages
       (await_consumeMessages connected_helper "order-events"
          (Options.make (Some order_is_X) None None (Some 0%Z))
          [Deliver (record other_order "0"); Deliver (record order_created "1");
           Deliver (record order_shipped "2")])
     = Some [event_of (record order_created "1") order_created].
Proof.
  split; [reflexivity|].
  exact (consumeMessages_with_cap_one_is_consumeMessage connected_helper "order-events"
           (Options.make (Some order_is_X) None None (Some 0%Z))
           [Deliver (record other_order "0"); Deliver (record order_created "1");
            Deliver (record order_shipped "2")]
           eq_refl eq_refl eq_refl).
Defined.

(** ** A record without a value *)

(** X18. A record whose value is null (a tombstone) cannot be skipped: when
    it is the first record the filter has not turned down, both methods
    throw the [TypeError] of [message.value.toString()], whatever the
    filter is, since the value is decoded before the filter is asked. *)
Theorem null_valued_record_throws {js : Builtins} kh topic options pre p post :
  isConnected kh = true ->
  subscribe_error (cluster kh) topic = None ->
  forallb (quiet (Options.filter options)) pre = true ->
  Message.value (Payload.message p) = None ->
  outcome (await_consumeMessage kh topic options (pre ++ Deliver p :: post))
  = Threw (TypeError "Cannot read properties of null (reading 'toString')")
  /\ outcome (await_consumeMessages kh topic options (pre ++ Deliver p :: post))
     = Threw (TypeError "Cannot read properties of null (reading 'toString')").
Proof.
  intros Hc Hs Hq Hnull.
  assert (Hscreen : screen (Options.filter options) p
                    = inl (TypeError "Cannot read properties of null (reading 'toString')")).
  { unfold screen, decode. rewrite Hnull. reflexivity. }
  split.
  - destruct (consumeMessage_ends kh topic options (pre ++ Deliver p :: post) Hc Hs) as [Ho _].
    rewrite Ho, verdict_quiet_prefix by exact Hq. cbn [verdict]. rewrite Hscreen. reflexivity.
  - destruct (quiet_is_faultless _ _ Hq) as [Hf Hm].
    destruct (consumeMessages_arms kh topic options Hc Hs)
      as (w & Hw & Hp & Ht & Hcons & Hloc & _).
    assert (Hrun : running (consumer (this w)) = true) by (rewrite Hcons; reflexivity).
    unfold await_consumeMessages, call. rewrite Hw.
    rewrite await_gathering by (auto; rewrite Hloc, Hm; simpl; lia).
    rewrite await_pending_cons by assumption.
    rewrite many_turn_fault
      with (e := TypeError "Cannot read properties of null (reading 'toString')")
      by assumption.
    cbn [this timer promise locals]. rewrite Hp. cbn [settled_with].
    rewrite await_settled by discriminate.
    unfold completed. reflexivity.
Qed.

Lemma null_valued_record_throws_witness :
  isConnected connected_helper = true
  /\ outcome (await_consumeMessages connected_helper "order-events"
                (with_filter (fun _ => inr false))
                ([Deliver (record order_created "0")]
                   ++ Deliver (Payload.make "order-events" 0%Z
                                 (Message.make (Some "X") None "1" "1700000000000"))
                   :: [TimerFires]))
     = Threw (TypeError "Cannot read properties of null (reading 'toString')").
Proof.
  split; [reflexivity|].
  destruct (null_valued_record_throws (js := sample_builtins) connected_helper "order-events"
              (with_filter (fun _ => inr false))
              [Deliver (record order_created "0")]
              (Payload.make "order-events" 0%Z
                 (Message.make (Some "X") None "1" "1700000000000"))
              [TimerFires] eq_refl eq_refl eq_refl eq_refl)
    as [_ H].
  exact H.
Defined.

(** ** The log line of a timeout *)

Lemma many_turn_timer_log {js : Builtins} options (w : WaitMany) d :
  timer w = Armed d ->
  logged (this (dispatch (consumeMessages_callbacks options) w TimerFires))
  = logged (this w)
      ++ [(INFO, ("Timeout reached. Consumed "
                  ++ JSON.print_number (Z.of_nat (List.length (locals w)))
                  ++ " messages")%string)].
Proof.
  intros Ht. simpl. rewrite Ht. simpl.
  unfold consumeMessages_onTimeout. js_unfold. simpl.
  destruct (promise w); reflexivity.
Qed.

(** X19. When [consumeMessages] ends by its timeout, the last line it logs
    carries the number of events it returns. *)
Theorem consumeMessages_timeout_logs_the_count {js : Builtins} kh topic options pre post :
  isConnected kh = true ->
  subscribe_error (cluster kh) topic = None ->
  forallb (faultless (Options.filter options)) pre = true ->
  (Z.of_nat (List.length (matches (Options.filter options) pre)) < cap_in_force options)%Z ->
  exists (w : WaitMany) returned earlier,
    await_consumeMessages kh topic options (pre ++ TimerFires :: post) = Waited w post
    /\ returned_messages (Waited w post) = Some returned
    /\ logged (this w)
       = earlier
           ++ [(INFO, ("Timeout reached. Consumed "
                       ++ JSON.print_number (Z.of_nat (List.length returned))
                       ++ " messages")%string)].
Proof.
  intros Hc Hs Hf Hlen. unfold cap_in_force in Hlen.
  destruct (consumeMessages_arms kh topic options Hc Hs)
    as (w & Hw & Hp & Ht & Hcons & Hloc & _).
  assert (Hrun : running (consumer (this w)) = true) by (rewrite Hcons; reflexivity).
  unfold await_consumeMessages, call. rewrite Hw.
  rewrite await_gathering by (auto; rewrite Hloc; simpl; lia).
  rewrite await_pending_cons by assumption.
  rewrite Hloc, Hp, Ht. cbn [app].
  match goal with |- context [dispatch ?cb ?w0 TimerFires] =>
    destruct (many_turn_timer options w0 _ eq_refl) as (H1 & H2 & H3 & H4);
    pose proof (many_turn_timer_log options w0 _ eq_refl) as H5
  end.
  cbn [this timer promise locals settled_with] in H1, H2, H3, H4, H5.
  rewrite await_settled by (rewrite H1; discriminate).
  eexists; eexists; eexists. split; [reflexivity|].
  unfold completed. rewrite H1. cbn [returned_messages]. rewrite H1. cbn [read].
  split; [reflexivity|]. rewrite H4. exact H5.
Qed.

Lemma consumeMessages_timeout_logs_the_count_witness :
  isConnected connected_helper = true
  /\ exists (w : WaitMany) returned earlier,
       await_consumeMessages connected_helper "order-events" (with_filter order_is_X)
         ([Deliver (record order_created "0"); Deliver (record other_order "1");
           Deliver (record order_shipped "2")] ++ TimerFires :: [])
       = Waited w []
       /\ returned_messages (Waited w []) = Some returned
       /\ logged (this w)
          = earlier
              ++ [(INFO, ("Timeout reached. Consumed "
                          ++ JSON.print_number (Z.of_nat (List.length returned))
                          ++ " messages")%string)].
Proof.
  split; [reflexivity|].
  exact (consumeMessages_timeout_logs_the_count connected_helper "order-events"
           (with_filter order_is_X)
           [Deliver (record order_created "0"); Deliver (record other_order "1");
            Deliver (record order_shipped "2")] []
           eq_refl eq_refl eq_refl eq_refl).
Defined.
